(** * Anomaly-detection loop and ensemble combiner

    A shallow embedding of
      - [src/detect_anomaly.py]   (the monitoring loop [run_pipeline]) and
      - [src/ensemble_inference.py] (the class [EnsembleDetector]),
    followed by the properties of the specification that concern them.

    Conventions of the embedding.
      - Python [float]s are idealised as exact rationals ([Q]); Python [int]s
        are [Z]; [len] is a [nat].  Equality of floats is [Qeq].
      - A [dict] is an association list in insertion order, written to with
        [dict_set] (a key that is present keeps its place).
      - A CSV file is the list of its rows, [None] when the file is absent;
        the file system, the time-series store and the pickle store are
        reliable (their calls return).
      - An exception is a value of [exn]; a call that may raise returns a
        [result].  A [while True] loop is run over a finite prefix of what
        the environment delivers, one [Env] per iteration. *)

From Stdlib Require Import String Ascii DecimalString.
From Stdlib Require Import ZArith QArith Qabs Bool Lia Lqa List.
Import ListNotations.

Local Open Scope Z_scope.

(* ------------------------------------------------------------------ *)
(** * Part I: the program                                              *)
(* ------------------------------------------------------------------ *)

(** ** Pandas helpers *)

(** [df.tail(n)]: the last [n] rows. *)
Definition tail {A : Type} (n : nat) (rows : list A) : list A :=
  skipn (length rows - n) rows.

(** ** detect_anomaly.py *)

Module DetectAnomaly.

(** Lines 49-56. *)
Definition ANOMALY_THRESHOLD : Z := 12.
Definition CPU_SURGE_THRESHOLD : Q := 10.
Definition MEM_SURGE_THRESHOLD : Q := 30.
Definition NET_SURGE_THRESHOLD : Q := 15000.

(** A row of the three feature columns
    [["cpu_usage", "memory_usage", "network_load"]]. *)
Record Sample : Type := mkSample {
  cpu_usage : Q;
  memory_usage : Q;
  network_load : Q
}.

(** A row of [results/detected_anomalies_for_testing.csv]. *)
Record AnomalyRecord : Type := mkAnomalyRecord {
  a_cpu_usage : Q;
  a_memory_usage : Q;
  a_network_load : Q;
  a_timestamp : string
}.

(** The point written to the measurement [ai_predictions]. *)
Record Point : Type := mkPoint {
  is_anomaly : Z;
  cpu_val : Q;
  mem_val : Q;
  net_val : Q
}.

(** scikit-learn, as far as the loop uses it: a scaler and a model are
    opaque fitted objects; [model_predict] returns [-1] for an outlier. *)
Class Sklearn : Type := {
  Scaler : Type;
  Model : Type;
  Scaled : Type;
  StandardScaler_fit : list Sample -> Scaler;
  scaler_transform : Scaler -> Sample -> Scaled;
  IsolationForest_fit : list Scaled -> Model;
  model_predict : Model -> Scaled -> Z
}.

Section Pipeline.
Context {SK : Sklearn}.

(** The files the loop reads and writes. *)
Record Files : Type := mkFiles {
  HISTORICAL_DATA : option (list Sample);
  DETECTED_ANOMALIES : option (list AnomalyRecord);
  MODEL_PKL : option Model;
  SCALER_PKL : option Scaler
}.

(** What one iteration observes of the outside world:
    the result of [fetch_live_logs()] ([None] for an empty frame),
    [time.time()] at the retraining test and after a retraining, and
    [datetime.utcnow().isoformat()]. *)
Record Env : Type := mkEnv {
  live : option Sample;
  time_at_check : Q;
  time_after_retrain : Q;
  utcnow : string
}.

(** The variables that survive an iteration: the global
    [anomaly_counter], the locals [model], [scaler] (bound together
    exactly when [ai_is_ready]) and [last_retrain_time], the files and
    the points written so far. *)
Record Loop : Type := mkLoop {
  anomaly_counter : Z;
  brain : option (Model * Scaler);
  last_retrain_time : Q;
  files : Files;
  written : list Point
}.

Definition ai_is_ready (s : Loop) : bool :=
  match brain s with Some _ => true | None => false end.

(** What an iteration with a live sample computed. *)
Record Report : Type := mkReport {
  model_prediction : Z;
  surge_condition : bool;
  ai_status : Z;
  updated_memory : list Sample;
  retrained : bool
}.

(** Lines 116-120. *)
Definition load_core_memory (fs : Files) : list Sample :=
  match HISTORICAL_DATA fs with
  | None => []
  | Some rows => rows
  end.

(** Lines 62-78.  The [try] guards against a failing store only. *)
Definition save_detected_anomaly
    (fs : Files) (cpu mem net : Q) (now : string) : Files :=
  let anomaly_record := [mkAnomalyRecord cpu mem net now] in
  let anomaly_record :=
    match DETECTED_ANOMALIES fs with
    | Some existing => tail 1000 (existing ++ anomaly_record)
    | None => anomaly_record
    end in
  mkFiles (HISTORICAL_DATA fs) (Some anomaly_record)
          (MODEL_PKL fs) (SCALER_PKL fs).

(** Lines 229-234. *)
Definition raw_prediction (s : Loop) (current_metrics : Sample) : Z :=
  match brain s with
  | Some (model, scaler) =>
      let latest_scaled := scaler_transform scaler current_metrics in
      let prediction := model_predict model latest_scaled in
      if prediction =? -1 then 1 else 0
  | None => 0
  end.

(** Lines 238-242. *)
Definition surge (cpu mem net : Q) : bool :=
  Qle_bool CPU_SURGE_THRESHOLD cpu
  || Qle_bool MEM_SURGE_THRESHOLD mem
  || Qle_bool NET_SURGE_THRESHOLD net.

(** Lines 244-252: the new counter and [ai_status]. *)
Definition gate (counter prediction : Z) (surging : bool) : Z * Z :=
  if (prediction =? 1) && surging then
    let counter := counter + 1 in
    (counter, if counter >=? ANOMALY_THRESHOLD then 1 else 0)
  else
    (0, 0).

(** Lines 269-278: the files after routing, and [updated_memory]. *)
Definition route (fs : Files) (prediction : Z) (current_metrics : Sample)
    (now : string) : Files * list Sample :=
  let historical_df := load_core_memory fs in
  if prediction =? 0 then
    let updated := tail 2000 (historical_df ++ [current_metrics]) in
    (mkFiles (Some updated) (DETECTED_ANOMALIES fs)
             (MODEL_PKL fs) (SCALER_PKL fs),
     updated)
  else
    (save_detected_anomaly fs (cpu_usage current_metrics)
       (memory_usage current_metrics) (network_load current_metrics) now,
     historical_df).

(** Line 281: the retraining test. *)
Definition retrain_due (updated : list Sample) (now last : Q) : bool :=
  (30 <=? length updated)%nat && negb (Qle_bool (now - last) 300).

(** Lines 282-294: fit, persist, and restart the clock.  The evaluation
    on the collected anomalies that follows (lines 297-337) only logs. *)
Definition retrain (s : Loop) (updated : list Sample) (t : Q) : Loop :=
  let scaler := StandardScaler_fit updated in
  let scaled_features := map (scaler_transform scaler) updated in
  let model := IsolationForest_fit scaled_features in
  let fs := files s in
  mkLoop (anomaly_counter s) (Some (model, scaler)) t
         (mkFiles (HISTORICAL_DATA fs) (DETECTED_ANOMALIES fs)
                  (Some model) (Some scaler))
         (written s).

(** Lines 219-345: the body of [while True]. *)
Definition iteration (s : Loop) (e : Env) : Loop * option Report :=
  match live e with
  | None => (s, None)
  | Some current_metrics =>
      let cpu := cpu_usage current_metrics in
      let mem := memory_usage current_metrics in
      let net := network_load current_metrics in
      let prediction := raw_prediction s current_metrics in
      let surging := surge cpu mem net in
      let '(counter, status) := gate (anomaly_counter s) prediction surging in
      let points := written s ++ [mkPoint status cpu mem net] in
      let '(fs, updated) := route (files s) prediction current_metrics (utcnow e) in
      let s1 := mkLoop counter (brain s) (last_retrain_time s) fs points in
      let fire := retrain_due updated (time_at_check e) (last_retrain_time s) in
      let s2 := if fire then retrain s1 updated (time_after_retrain e) else s1 in
      (s2, Some (mkReport prediction surging status updated fire))
  end.

(** Lines 206-216: the state the loop starts from. *)
Definition startup (fs : Files) (counter : Z) (now : Q) : Loop :=
  let loaded :=
    match MODEL_PKL fs, SCALER_PKL fs with
    | Some model, Some scaler => Some (model, scaler)
    | _, _ => None
    end in
  mkLoop counter loaded now fs [].

(** [run_pipeline] over the iterations the environment delivers. *)
Fixpoint run_pipeline (s : Loop) (envs : list Env)
    : Loop * list (option Report) :=
  match envs with
  | [] => (s, [])
  | e :: rest =>
      let '(s1, r) := iteration s e in
      let '(s2, rs) := run_pipeline s1 rest in
      (s2, r :: rs)
  end.

(** *** Vocabulary of the properties *)

(** An iteration counts towards an alert when the raw label is anomaly and
    the surge condition holds. *)
Definition qualifying (r : option Report) : Prop :=
  match r with
  | Some r => model_prediction r = 1 /\ surge_condition r = true
  | None => False
  end.

(** The samples a run learned from: those of its iterations whose raw label
    was normal, in order. *)
Definition learned (envs : list Env) (reports : list (option Report))
    : list Sample :=
  flat_map
    (fun er : Env * option Report =>
       match live (fst er), snd er with
       | Some x, Some r => if model_prediction r =? 0 then [x] else []
       | _, _ => []
       end)
    (combine envs reports).

(** The record [save_detected_anomaly] writes for a sample. *)
Definition archived (x : Sample) (now : string) : AnomalyRecord :=
  mkAnomalyRecord (cpu_usage x) (memory_usage x) (network_load x) now.

End Pipeline.

End DetectAnomaly.

(** ** ensemble_inference.py *)

Module EnsembleInference.

(** *** Exceptions *)

Inductive exn : Type :=
| ValueError (msg : string)
| FileNotFoundError (msg : string)
| RuntimeError (msg : string)
| ZeroDivisionError (msg : string)
| AttributeError (msg : string)
| UnboundLocalError (msg : string)
| Exception (msg : string).

(** [str(e)]. *)
Definition str (e : exn) : string :=
  match e with
  | ValueError msg | FileNotFoundError msg | RuntimeError msg
  | ZeroDivisionError msg | AttributeError msg | UnboundLocalError msg
  | Exception msg => msg
  end.

Inductive result (A : Type) : Type :=
| Ok (a : A)
| Raise (e : exn).
Arguments Ok {A} a.
Arguments Raise {A} e.

Definition bind {A B : Type} (r : result A) (k : A -> result B) : result B :=
  match r with
  | Ok a => k a
  | Raise e => Raise e
  end.

Notation "x <- r ;; k" := (bind r (fun x => k))
  (at level 61, r at next level, right associativity).
Notation "' p <- r ;; k" := (bind r (fun x => let p := x in k))
  (at level 61, p pattern, r at next level, right associativity).

Definition is_zero_division {A : Type} (r : result A) : bool :=
  match r with
  | Raise (ZeroDivisionError _) => true
  | _ => false
  end.

(** *** Strings and paths *)

Definition lower_ascii (c : ascii) : ascii :=
  let n := nat_of_ascii c in
  if ((65 <=? n) && (n <=? 90))%nat then ascii_of_nat (n + 32) else c.

(** [s.lower()] on ASCII text.  No character outside ASCII lower-cases to
    an ASCII letter of ["hard"], ["soft"] or ["weighted"]. *)
Fixpoint lower (s : string) : string :=
  match s with
  | EmptyString => EmptyString
  | String c rest => String (lower_ascii c) (lower rest)
  end.

(** [s.endswith(suffix)]. *)
Definition endswith (s suffix : string) : bool :=
  let n := String.length s in
  let m := String.length suffix in
  (m <=? n)%nat && String.eqb (substring (n - m) m s) suffix.

(** [os.path.join(dir, name)] for a relative [name]. *)
Definition os_path_join (dir name : string) : string :=
  if (String.eqb dir EmptyString || endswith dir "/")%bool
  then (dir ++ name)%string
  else (dir ++ "/" ++ name)%string.

Definition str_of_nat (n : nat) : string :=
  NilEmpty.string_of_uint (Nat.to_uint n).

(** *** Dictionaries *)

Definition dict (V : Type) : Type := list (string * V).

Fixpoint dict_lookup {V : Type} (d : dict V) (k : string) : option V :=
  match d with
  | [] => None
  | (k', v) :: rest => if String.eqb k' k then Some v else dict_lookup rest k
  end.

(** [d[k] = v]. *)
Fixpoint dict_set {V : Type} (d : dict V) (k : string) (v : V) : dict V :=
  match d with
  | [] => [(k, v)]
  | (k', v') :: rest =>
      if String.eqb k' k then (k, v) :: rest else (k', v') :: dict_set rest k v
  end.

(** [d.get(k, default)]. *)
Definition dict_get {V : Type} (d : dict V) (k : string) (default : V) : V :=
  match dict_lookup d k with
  | Some v => v
  | None => default
  end.

(** [k in d]. *)
Definition dict_mem {V : Type} (d : dict V) (k : string) : bool :=
  match dict_lookup d k with
  | Some _ => true
  | None => false
  end.

Definition keys {V : Type} (d : dict V) : list string := map fst d.
Definition values {V : Type} (d : dict V) : list V := map snd d.

(** The keys of a dictionary are pairwise distinct. *)
Fixpoint distinct (ks : list string) : bool :=
  match ks with
  | [] => true
  | k :: rest => negb (existsb (String.eqb k) rest) && distinct rest
  end.

(** *** Arithmetic *)

(** [a / b] on floats. *)
Definition truediv (a b : Q) : result Q :=
  if Qeq_bool b 0 then Raise (ZeroDivisionError "float division by zero")
  else Ok (a / b)%Q.

Definition Qsum (l : list Q) : Q := fold_left Qplus l 0%Q.
Definition Zsum (l : list Z) : Z := fold_left Z.add l 0.

(** [max(l)] for a non-empty [first :: rest]; [max(l, default=d)]. *)
Definition max_from (first : Q) (rest : list Q) : Q :=
  fold_left (fun m s => if Qle_bool s m then m else s) rest first.

Definition max_default (l : list Q) (default : Q) : Q :=
  match l with
  | [] => default
  | first :: rest => max_from first rest
  end.

(** [np.mean(l)].  numpy answers [nan] with a warning for an empty list;
    the model reports that zero division like Python's. *)
Definition np_mean (l : list Q) : result Q :=
  truediv (Qsum l) (inject_Z (Z.of_nat (length l))).

(** [[f(x) for x in l]] for an [f] that may raise. *)
Fixpoint for_each {A B : Type} (f : A -> result B) (l : list A)
    : result (list B) :=
  match l with
  | [] => Ok []
  | x :: rest =>
      y <- f x ;;
      ys <- for_each f rest ;;
      Ok (y :: ys)
  end.

(** *** Models and votes *)

(** A fitted scikit-learn estimator: [predict([x])[0]], and whichever of
    [score_samples([x])[0]] and [decision_function([x])[0]] it has. *)
Record Estimator : Type := mkEstimator {
  est_predict : list Q -> result Z;
  score_samples : option (list Q -> result Q);
  decision_function : option (list Q -> result Q)
}.

(** [scaler.transform([x])[0]]. *)
Definition ScalerObj : Type := list Q -> result (list Q).

(** An entry of [model_votes]:
    [{"prediction": p, "score": s}] or [{"error": msg}]. *)
Inductive Vote : Type :=
| Scored (prediction : Z) (score : Q)
| Failed (error : string).

(** [v["prediction"]] when ["prediction" in v]. *)
Definition vote_prediction (v : Vote) : option Z :=
  match v with
  | Scored p _ => Some p
  | Failed _ => None
  end.

(** [v["score"]] when ["score" in v]. *)
Definition vote_score (v : Vote) : option Q :=
  match v with
  | Scored _ s => Some s
  | Failed _ => None
  end.

(** Lines 41-51. *)
Definition MODEL_WEIGHTS : dict Q :=
  [ ("isolation_forest_model.pkl"%string, 0.40%Q);
    ("elliptic_envelope_model.pkl"%string, 0.35%Q);
    ("lof_model_model.pkl"%string, 0.25%Q) ].

Definition ENSEMBLE_STRATEGIES : dict string :=
  [ ("hard", "Majority voting (anomaly if >=2/3 models agree)");
    ("soft", "Average anomaly scores across all models");
    ("weighted", "Weighted average by ROC-AUC performance") ]%string.

Record EnsembleDetector : Type := mkEnsembleDetector {
  models_dir : string;
  strategy : string;
  threshold : Q;
  models : dict Estimator;
  scaler : option ScalerObj
}.

(** *** Construction *)

(** The part of the file system the constructor reads. *)
Record Disk : Type := mkDisk {
  path_exists : string -> bool;
  listdir : string -> list string;
  load_scaler : string -> result ScalerObj;
  load_model : string -> result Estimator
}.

(** Lines 89-110. *)
Definition _load_models (disk : Disk) (dir : string)
    : result (dict Estimator) :=
  if negb (path_exists disk dir) then
    Raise (FileNotFoundError ("Models directory not found: " ++ dir))
  else
    let model_files :=
      filter (fun f => endswith f "_model.pkl") (listdir disk dir) in
    match model_files with
    | [] => Raise (FileNotFoundError ("No models found in: " ++ dir))
    | _ =>
        let loaded :=
          fold_left
            (fun acc model_file =>
               match load_model disk (os_path_join dir model_file) with
               | Ok model => dict_set acc model_file model
               | Raise _ => acc
               end)
            model_files [] in
        match loaded with
        | [] => Raise (RuntimeError "No models loaded successfully")
        | _ => Ok loaded
        end
    end.

(** Lines 73-82. *)
Definition _load_scaler (disk : Disk) (dir : string)
    (scaler_path : option string) : result (option ScalerObj) :=
  let from_default :=
    let default_scaler := os_path_join dir "scaler.pkl" in
    if path_exists disk default_scaler then
      sc <- load_scaler disk default_scaler ;; Ok (Some sc)
    else Ok None in
  match scaler_path with
  | Some p =>
      if negb (String.eqb p EmptyString) && path_exists disk p then
        sc <- load_scaler disk p ;; Ok (Some sc)
      else from_default
  | None => from_default
  end.

(** Lines 53-87. *)
Definition __init__ (disk : Disk) (dir : string)
    (scaler_path : option string) (strat : string) (thr : Q)
    : result EnsembleDetector :=
  let strat := lower strat in
  if negb (dict_mem ENSEMBLE_STRATEGIES strat) then
    Raise (ValueError
             "Strategy must be one of: ['hard', 'soft', 'weighted']")
  else
    sc <- _load_scaler disk dir scaler_path ;;
    ms <- _load_models disk dir ;;
    Ok (mkEnsembleDetector dir strat thr ms sc).

(** Lines 243-248. *)
Definition set_threshold (self : EnsembleDetector) (thr : Q)
    : result EnsembleDetector :=
  if negb (Qle_bool 0 thr && Qle_bool thr 1) then
    Raise (ValueError "Threshold must be between 0 and 1")
  else
    Ok (mkEnsembleDetector (models_dir self) (strategy self) thr
          (models self) (scaler self)).

(** Lines 239-241. *)
Definition get_strategy_info (self : EnsembleDetector) : string :=
  dict_get ENSEMBLE_STRATEGIES (strategy self) "Unknown"%string.

(** *** Voting *)

Definition predictions_of (model_votes : dict Vote) : list Z :=
  flat_map (fun v => match vote_prediction v with
                     | Some p => [p]
                     | None => []
                     end) (values model_votes).

Definition abs_scores_of (model_votes : dict Vote) : list Q :=
  flat_map (fun v => match vote_score v with
                     | Some s => [Qabs s]
                     | None => []
                     end) (values model_votes).

(** Lines 172-189. *)
Definition _hard_voting (model_votes : dict Vote) : result (Q * Z) :=
  let predictions := predictions_of model_votes in
  match predictions with
  | [] => Ok (0%Q, 0)
  | _ =>
      let anomaly_count := Zsum predictions in
      let total_models := Z.of_nat (length predictions) in
      score <- truediv (inject_Z anomaly_count) (inject_Z total_models) ;;
      bound <- truediv (inject_Z (total_models * 2)) 3 ;;
      let final_prediction :=
        if Qle_bool bound (inject_Z anomaly_count) then 1 else 0 in
      Ok (score, final_prediction)
  end.

(** Lines 199-204: [normalized_scores] for the non-empty
    [scores = first :: rest]. *)
Definition normalize (first : Q) (rest : list Q) : result (list Q) :=
  let max_score := max_from first rest in
  let max_score := if Qeq_bool max_score 0 then 1%Q else max_score in
  for_each (fun s => truediv s max_score) (first :: rest).

(** Lines 191-210. *)
Definition _soft_voting (self : EnsembleDetector) (model_votes : dict Vote)
    : result (Q * Z) :=
  let scores := abs_scores_of model_votes in
  match scores with
  | [] => Ok (0%Q, 0)
  | first :: rest =>
      normalized_scores <- normalize first rest ;;
      ensemble_score <- np_mean normalized_scores ;;
      let final_prediction :=
        if Qle_bool (threshold self) ensemble_score then 1 else 0 in
      Ok (ensemble_score, final_prediction)
  end.

(** Lines 217-222: the loop accumulating [(weighted_sum, weight_sum)].
    The default of [dict.get] is evaluated before the lookup. *)
Fixpoint weighted_sums (self : EnsembleDetector) (items : dict Vote)
    (weighted_sum weight_sum : Q) : result (Q * Q) :=
  match items with
  | [] => Ok (weighted_sum, weight_sum)
  | (model_name, vote) :: rest =>
      match vote_score vote with
      | Some s =>
          default <- truediv 1 (inject_Z (Z.of_nat (length (models self)))) ;;
          let weight := dict_get MODEL_WEIGHTS model_name default in
          let score := Qabs s in
          weighted_sums self rest
            (weighted_sum + score * weight)%Q (weight_sum + weight)%Q
      | None => weighted_sums self rest weighted_sum weight_sum
      end
  end.

(** Lines 212-237. *)
Definition _weighted_voting (self : EnsembleDetector)
    (model_votes : dict Vote) : result (Q * Z) :=
  ' (weighted_sum, weight_sum) <- weighted_sums self model_votes 0%Q 0%Q ;;
  if Qeq_bool weight_sum 0 then Ok (0%Q, 0)
  else
    ensemble_score <-
      (if negb (Qle_bool weight_sum 0)
       then truediv weighted_sum weight_sum
       else Ok 0%Q) ;;
    let max_score := max_default (abs_scores_of model_votes) 1%Q in
    ensemble_score <-
      (if negb (Qle_bool max_score 0)
       then truediv ensemble_score max_score
       else Ok ensemble_score) ;;
    let final_prediction :=
      if Qle_bool (threshold self) ensemble_score then 1 else 0 in
    Ok (ensemble_score, final_prediction).

(** *** Prediction *)

(** Lines 140-156: the body of the [try] for one model. *)
Definition ask (model : Estimator) (features_scaled : list Q)
    : result Vote :=
  prediction <- est_predict model features_scaled ;;
  score <-
    match score_samples model with
    | Some f => f features_scaled
    | None =>
        match decision_function model with
        | Some g => g features_scaled
        | None =>
            Raise (AttributeError "object has no attribute 'decision_function'")
        end
    end ;;
  let is_anomaly := if prediction =? -1 then 1 else 0 in
  Ok (Scored is_anomaly score).

(** Lines 138-160: one entry of [model_votes] per model, an error entry
    for a model that raised. *)
Definition vote_of (model : Estimator) (features_scaled : list Q) : Vote :=
  match ask model features_scaled with
  | Ok v => v
  | Raise e => Failed (str e)
  end.

Fixpoint collect_votes (items : dict Estimator) (features_scaled : list Q)
    (model_votes : dict Vote) : dict Vote :=
  match items with
  | [] => model_votes
  | (model_name, model) :: rest =>
      collect_votes rest features_scaled
        (dict_set model_votes model_name (vote_of model features_scaled))
  end.

(** Lines 128-132. *)
Definition scale (self : EnsembleDetector) (features : list Q)
    : result (list Q) :=
  match scaler self with
  | Some transform => transform features
  | None => Ok features
  end.

(** Lines 163-168.  No branch binds the results for any other strategy. *)
Definition aggregate (self : EnsembleDetector) (model_votes : dict Vote)
    : result (Q * Z) :=
  if String.eqb (strategy self) "hard" then _hard_voting model_votes
  else if String.eqb (strategy self) "soft" then _soft_voting self model_votes
  else if String.eqb (strategy self) "weighted" then _weighted_voting self model_votes
  else Raise (UnboundLocalError
                "local variable 'ensemble_score' referenced before assignment").

(** Lines 112-170. *)
Definition predict (self : EnsembleDetector) (features : list Q)
    : result (Q * Z * dict Vote) :=
  if negb (length features =? 3)%nat then
    Raise (ValueError ("Expected 3 features, got "
                       ++ str_of_nat (length features)))
  else
    features_scaled <- scale self features ;;
    let model_votes := collect_votes (models self) features_scaled [] in
    ' (ensemble_score, final_prediction) <- aggregate self model_votes ;;
    Ok (ensemble_score, final_prediction, model_votes).

(** *** Vocabulary of the properties *)

(** The arithmetic mean and the maximum, as the specification uses them. *)
Definition mean (l : list Q) : Q :=
  (Qsum l / inject_Z (Z.of_nat (length l)))%Q.

Definition maximum (l : list Q) : Q := max_default l 0%Q.

(** Soft voting in the specification's words: the mean of the [|score|]s,
    each divided by the largest of them. *)
Definition soft_score_spec (abs_scores : list Q) : Q :=
  mean (map (fun s => s / maximum abs_scores)%Q abs_scores).

(** The weight of a model: its entry in the static table, [1/num_models]
    when it has none. *)
Definition weight_of (self : EnsembleDetector) (model_name : string) : Q :=
  dict_get MODEL_WEIGHTS model_name
    (1 / inject_Z (Z.of_nat (length (models self))))%Q.

(** The scoring models of a call with their [|score|]. *)
Definition scored_items (model_votes : dict Vote) : list (string * Q) :=
  flat_map (fun item : string * Vote =>
              match vote_score (snd item) with
              | Some s => [(fst item, Qabs s)]
              | None => []
              end) model_votes.

(** Weighted voting in the specification's words: the weighted mean of the
    [|score|]s, divided by the largest of them. *)
Definition weighted_score_spec (self : EnsembleDetector)
    (model_votes : dict Vote) : Q :=
  let items := scored_items model_votes in
  (Qsum (map (fun item => snd item * weight_of self (fst item)) items)
   / Qsum (map (fun item => weight_of self (fst item)) items)
   / maximum (abs_scores_of model_votes))%Q.

(** The number of models that voted, and of those that voted anomaly. *)
Definition voters (model_votes : dict Vote) : nat :=
  length (predictions_of model_votes).

Definition anomaly_votes (model_votes : dict Vote) : nat :=
  length (filter (Z.eqb 1) (predictions_of model_votes)).

(** A vote that carries a prediction and a score. *)
Definition is_scored (item : string * Vote) : bool :=
  match snd item with
  | Scored _ _ => true
  | Failed _ => false
  end.

(** A vote whose prediction, when it has one, is [0] or [1]. *)
Definition binary_vote (item : string * Vote) : Prop :=
  match snd item with
  | Scored p _ => p = 0 \/ p = 1
  | Failed _ => True
  end.

(** The entry [predict] records for a model. *)
Definition recorded (features_scaled : list Q) (item : string * Estimator)
    : string * Vote :=
  (fst item, vote_of (snd item) features_scaled).

(** A model that answers without raising. *)
Definition answers (features_scaled : list Q) (item : string * Estimator)
    : bool :=
  match ask (snd item) features_scaled with
  | Ok _ => true
  | Raise _ => false
  end.

(** What a vote would be if a failed model counted as a zero score and a
    normal prediction instead of being left out. *)
Definition counted_as_zero (item : string * Vote) : string * Vote :=
  match snd item with
  | Scored _ _ => item
  | Failed _ => (fst item, Scored 0 0%Q)
  end.

End EnsembleInference.

(** ** detect_anomaly.py: [fetch_live_logs] and the loop it feeds *)

Module FetchLiveLogs.
Import DetectAnomaly EnsembleInference.

(** A point of an InfluxDB result set: its ["time"] and its field columns;
    a field of the telegraf measurements is a number or null ([None]). *)
Record InfluxPoint : Type := mkInfluxPoint {
  point_time : string;
  point_fields : dict (option Q)
}.

(** The global [previous_network] (line 47). *)
Record PreviousNetwork : Type := mkPreviousNetwork {
  previous_bytes : option Q;
  previous_time : option string
}.

Definition no_previous : PreviousNetwork := mkPreviousNetwork None None.

(** What the three queries of one poll answer: the list of points, or the
    exception the client raised. *)
Record Influx : Type := mkInflux {
  cpu_query : result (list InfluxPoint);
  mem_query : result (list InfluxPoint);
  net_query : result (list InfluxPoint)
}.

(** [r and name in r[0]], and then [r[0][name]]. *)
Definition first_field (points : list InfluxPoint) (name : string)
    : option (option Q) :=
  match points with
  | [] => None
  | p :: _ => dict_lookup (point_fields p) name
  end.

Section Fetch.

(** [datetime.fromisoformat(s.replace('Z', '+00:00'))], as seconds. *)
Variable fromisoformat : string -> result Q.

(** Lines 172-180: [net_val] from the previous reading. *)
Definition network_rate (previous : PreviousNetwork)
    (current_bytes : option Q) (current_time : string) : result (option Q) :=
  match previous_bytes previous, previous_time previous with
  | Some earlier_bytes, Some earlier_time =>
      t1 <- fromisoformat current_time ;;
      t0 <- fromisoformat earlier_time ;;
      let time_diff := (t1 - t0)%Q in
      if negb (Qle_bool time_diff 0) then
        match current_bytes with
        | Some b =>
            let bytes_diff := (b - earlier_bytes)%Q in
            rate <- truediv bytes_diff time_diff ;;
            Ok (Some (if Qle_bool rate 0 then 0%Q else rate))
        | None =>
            Raise (Exception "unsupported operand type(s) for -: 'NoneType'")
        end
      else Ok None
  | _, _ => Ok None
  end.

(** Lines 149-195: the body of the [try]. *)
Definition fetch_body (db : Influx) (previous : PreviousNetwork)
    : result (option Sample * PreviousNetwork) :=
  cpu_result <- cpu_query db ;;
  mem_result <- mem_query db ;;
  net_result <- net_query db ;;
  let cpu_val :=
    match first_field cpu_result "usage_idle" with
    | Some (Some usage_idle) => Some (100 - usage_idle)%Q
    | _ => None
    end in
  let mem_val :=
    match first_field mem_result "used_percent" with
    | Some v => v
    | None => None
    end in
  ' (net_val, previous) <-
    match net_result with
    | p :: _ =>
        match dict_lookup (point_fields p) "bytes_recv" with
        | Some current_bytes =>
            net_val <- network_rate previous current_bytes (point_time p) ;;
            Ok (net_val, mkPreviousNetwork current_bytes (Some (point_time p)))
        | None => Ok (None, previous)
        end
    | [] => Ok (None, previous)
    end ;;
  match cpu_val, mem_val, net_val with
  | Some c, Some m, Some n => Ok (Some (mkSample c m n), previous)
  | _, _, _ => Ok (None, previous)
  end.

(** Lines 122-199: the frame ([None] when it is empty) and the global
    [previous_network] afterwards.  Every raise of the body happens before
    the global is written. *)
Definition fetch_live_logs (db : Influx) (previous : PreviousNetwork)
    : option Sample * PreviousNetwork :=
  match fetch_body db previous with
  | Ok r => r
  | Raise _ => (None, previous)
  end.

Context {SK : Sklearn}.

(** What one poll observes besides the database: the clock readings and
    the timestamp of {!Env}. *)
Record Tick : Type := mkTick {
  tick_db : Influx;
  tick_time_at_check : Q;
  tick_time_after_retrain : Q;
  tick_utcnow : string
}.

(** Lines 219-345 with [fetch_live_logs] in place: one pass of the loop
    over the loop variables and [previous_network]. *)
Definition poll (s : Loop) (previous : PreviousNetwork) (t : Tick)
    : Loop * PreviousNetwork * option Report :=
  let '(live_df, previous) := fetch_live_logs (tick_db t) previous in
  let '(s, r) :=
    iteration s (mkEnv live_df (tick_time_at_check t)
                   (tick_time_after_retrain t) (tick_utcnow t)) in
  (s, previous, r).

End Fetch.

End FetchLiveLogs.

(** ** Further vocabulary of the properties *)

Import DetectAnomaly.

Section PipelineVocabulary.
Context {SK : Sklearn}.

(** The rows of the anomaly archive, none when the file is absent. *)
Definition archive_rows (fs : Files) : list AnomalyRecord :=
  match DETECTED_ANOMALIES fs with
  | Some rows => rows
  | None => []
  end.

(** The number of iterations of a run that had a live sample. *)
Definition live_count (reports : list (option Report)) : nat :=
  length (filter (fun r => match r with Some _ => true | None => false end)
            reports).


(** The model and scaler a restart would load (lines 207-214). *)
Definition on_disk (fs : Files) : option (Model * Scaler) :=
  match MODEL_PKL fs, SCALER_PKL fs with
  | Some model, Some scaler => Some (model, scaler)
  | _, _ => None
  end.

End PipelineVocabulary.

(** The scaler file the constructor reads (lines 73-82), if any. *)
Definition chosen_scaler (disk : EnsembleInference.Disk) (dir : string)
    (scaler_path : option string) : option string :=
  let default_scaler := EnsembleInference.os_path_join dir "scaler.pkl" in
  let from_default :=
    if EnsembleInference.path_exists disk default_scaler
    then Some default_scaler else None in
  match scaler_path with
  | Some p =>
      if negb (String.eqb p EmptyString) && EnsembleInference.path_exists disk p
      then Some p else from_default
  | None => from_default
  end.

(** A loadable model file of a directory listing. *)
Definition loads (disk : EnsembleInference.Disk) (dir model_file : string)
    : option EnsembleInference.Estimator :=
  match EnsembleInference.load_model disk
          (EnsembleInference.os_path_join dir model_file) with
  | EnsembleInference.Ok model => Some model
  | EnsembleInference.Raise _ => None
  end.

(** ** Fixtures: concrete inputs on which the properties are exercised *)

Import DetectAnomaly.

(** A stand-in for scikit-learn: a model is the label it always answers. *)
#[local] Instance constant_sklearn : Sklearn := {
  Scaler := unit;
  Model := Z;
  Scaled := Sample;
  StandardScaler_fit := fun _ => tt;
  scaler_transform := fun _ x => x;
  IsolationForest_fit := fun _ => 1;
  model_predict := fun label _ => label
}.

(** A CPU spike, and a quiet machine. *)
Definition spike : Sample := mkSample 85 50 600.
Definition calm : Sample := mkSample 3 20 500.

Definition no_files : Files := mkFiles None None None None.

(** The loop with a model that flags every sample, counter at [0]. *)
Definition alarmed : Loop := mkLoop 0 (Some (-1, tt)) 0 no_files [].

(** The loop before any model exists, with [n] calm rows on disk and the
    last retraining at time [0]. *)
Definition untrained (n : nat) : Loop :=
  mkLoop 0 None 0 (mkFiles (Some (repeat calm n)) None None None) [].

Definition at_time (x : Sample) (t : Q) : Env :=
  mkEnv (Some x) t t "2024-01-01T00:00:00".

Import EnsembleInference.

(** A model that always answers the prediction [p] and the score [s], and
    one that always raises. *)
Definition steady (p : Z) (s : Q) : Estimator :=
  mkEstimator (fun _ => Ok p) (Some (fun _ => Ok s)) None.

Definition broken : Estimator :=
  mkEstimator (fun _ => Raise (Exception "model is broken")) None None.

(** A detector over three models with the given predictions and scores. *)
Definition trio (strat : string) (thr : Q) (p1 p2 p3 : Z) (s1 s2 s3 : Q)
    : EnsembleDetector :=
  mkEnsembleDetector "models/" strat thr
    [ ("isolation_forest_model.pkl"%string, steady p1 s1);
      ("elliptic_envelope_model.pkl"%string, steady p2 s2);
      ("lof_model.pkl"%string, steady p3 s3) ]
    None.

(** The detector of the specification's soft-voting example. *)
Definition soft_example : EnsembleDetector :=
  trio "soft" 0.5 1 (-1) 1 (-0.2) (-0.8) (-0.4).

(** A detector whose second model raises. *)
Definition with_broken (strat : string) : EnsembleDetector :=
  mkEnsembleDetector "models/" strat 0.5
    [ ("isolation_forest_model.pkl"%string, steady 1 (-0.2));
      ("elliptic_envelope_model.pkl"%string, broken);
      ("lof_model.pkl"%string, steady (-1) (-0.4)) ]
    None.

(** A detector over one model. *)
Definition solo (thr s : Q) : EnsembleDetector :=
  mkEnsembleDetector "models/" "soft" thr
    [ ("isolation_forest_model.pkl"%string, steady (-1) s) ] None.

(** A models directory that holds one model and no scaler. *)
Definition one_model_disk : Disk :=
  mkDisk (fun p => String.eqb p "models/")
         (fun _ => ["isolation_forest_model.pkl"; "README.md"]%string)
         (fun _ => Raise (FileNotFoundError "scaler.pkl"))
         (fun _ => Ok (steady 1 (-0.5))).

Definition sample_features : list Q := [45.2; 62.1; 1250.5]%Q.

Import FetchLiveLogs.

(** A clock for timestamps of the form used below. *)
Definition toy_clock (stamp : string) : result Q :=
  if String.eqb stamp "2024-01-01T00:00:00Z" then Ok 0%Q
  else if String.eqb stamp "2024-01-01T00:00:10Z" then Ok 10%Q
  else Raise (ValueError "Invalid isoformat string").

Definition reading (stamp field : string) (value : Q) : list InfluxPoint :=
  [mkInfluxPoint stamp [(field, Some value)]].

(** A poll ten seconds after a reading of 1000 bytes: 90% idle, 40% memory,
    51000 bytes received. *)
Definition busy_db : Influx :=
  mkInflux (Ok (reading "2024-01-01T00:00:10Z" "usage_idle" 90%Q))
           (Ok (reading "2024-01-01T00:00:10Z" "used_percent" 40%Q))
           (Ok (reading "2024-01-01T00:00:10Z" "bytes_recv" 51000%Q)).

Definition earlier_reading : PreviousNetwork :=
  mkPreviousNetwork (Some 1000%Q) (Some "2024-01-01T00:00:00Z"%string).

(** The same poll with the database unreachable for the memory query. *)
Definition broken_db : Influx :=
  mkInflux (cpu_query busy_db) (Raise (Exception "connection refused"))
           (net_query busy_db).

(** A models directory with two model files, one of which does not load,
    and a scaler that adds nothing. *)
Definition two_model_disk : Disk :=
  mkDisk (fun p => String.eqb p "models/" || String.eqb p "models/scaler.pkl")
         (fun _ => ["isolation_forest_model.pkl"; "scaler.pkl";
                    "lof_model.pkl"; "notes.txt"]%string)
         (fun _ => Ok (fun features => Ok features))
         (fun p => if String.eqb p "models/lof_model.pkl"
                   then Raise (Exception "truncated pickle")
                   else Ok (steady (-1) (-0.5))).

(** A models directory without a single loadable model. *)
Definition unreadable_disk : Disk :=
  mkDisk (fun p => String.eqb p "models/")
         (fun _ => ["isolation_forest_model.pkl"]%string)
         (fun _ => Raise (FileNotFoundError "scaler.pkl"))
         (fun _ => Raise (Exception "truncated pickle")).

(** A detector whose three models all raise. *)
Definition all_broken (strat : string) : EnsembleDetector :=
  mkEnsembleDetector "models/" strat 0.5
    [ ("isolation_forest_model.pkl"%string, broken);
      ("elliptic_envelope_model.pkl"%string, broken);
      ("lof_model.pkl"%string, broken) ]
    None.


(* ------------------------------------------------------------------ *)
(** * Part II: properties                                              *)
(* ------------------------------------------------------------------ *)

(** ** The temporal gate, the routing and the retraining test *)

Section PipelineProperties.
Context {SK : Sklearn}.

Lemma surge_spec (cpu mem net : Q) :
  surge cpu mem net = true <->
  (CPU_SURGE_THRESHOLD <= cpu \/ MEM_SURGE_THRESHOLD <= mem
   \/ NET_SURGE_THRESHOLD <= net)%Q.
Proof.
  unfold surge. rewrite !orb_true_iff, !Qle_bool_iff. tauto.
Qed.

Lemma raw_prediction_binary (s : Loop) (x : Sample) :
  raw_prediction s x = 0 \/ raw_prediction s x = 1.
Proof.
  unfold raw_prediction. destruct (brain s) as [[m sc]|]; [|now left].
  destruct (_ =? -1); [now right | now left].
Qed.

(** The iteration on a live sample, field by field. *)
Lemma iteration_live (s : Loop) (e : Env) (x : Sample) :
  live e = Some x ->
  let p := raw_prediction s x in
  let g := surge (cpu_usage x) (memory_usage x) (network_load x) in
  let routed := route (files s) p x (utcnow e) in
  let fire := retrain_due (snd routed) (time_at_check e) (last_retrain_time s) in
  let s1 := mkLoop (fst (gate (anomaly_counter s) p g)) (brain s)
              (last_retrain_time s) (fst routed)
              (written s ++ [mkPoint (snd (gate (anomaly_counter s) p g))
                               (cpu_usage x) (memory_usage x) (network_load x)]) in
  iteration s e =
  (if fire then retrain s1 (snd routed) (time_after_retrain e) else s1,
   Some (mkReport p g (snd (gate (anomaly_counter s) p g)) (snd routed) fire)).
Proof.
  intros Hx. unfold iteration. rewrite Hx. cbv zeta.
  destruct (gate _ _ _) as [c st]. destruct (route _ _ _ _) as [fs up].
  reflexivity.
Qed.

Lemma iteration_counter (s : Loop) (e : Env) (x : Sample) :
  live e = Some x ->
  anomaly_counter (fst (iteration s e)) =
  fst (gate (anomaly_counter s) (raw_prediction s x)
         (surge (cpu_usage x) (memory_usage x) (network_load x))).
Proof.
  intros Hx. rewrite (iteration_live s e x Hx). cbv zeta. cbn [fst].
  destruct (retrain_due _ _ _); reflexivity.
Qed.

Lemma iteration_files (s : Loop) (e : Env) (x : Sample) :
  live e = Some x ->
  let fs := files (fst (iteration s e)) in
  let routed := fst (route (files s) (raw_prediction s x) x (utcnow e)) in
  HISTORICAL_DATA fs = HISTORICAL_DATA routed /\
  DETECTED_ANOMALIES fs = DETECTED_ANOMALIES routed.
Proof.
  intros Hx. rewrite (iteration_live s e x Hx). cbv zeta. cbn [fst].
  destruct (retrain_due _ _ _); cbn; split; reflexivity.
Qed.

Lemma gate_cases (c p : Z) (g : bool) :
  (p = 1 /\ g = true /\ gate c p g = (c + 1, if c + 1 >=? ANOMALY_THRESHOLD then 1 else 0))
  \/ (~ (p = 1 /\ g = true) /\ gate c p g = (0, 0)).
Proof.
  unfold gate. destruct (p =? 1) eqn:Hp; destruct g; cbn.
  - left. apply Z.eqb_eq in Hp. auto.
  - right. split; [intros [_ H]; discriminate | reflexivity].
  - right. apply Z.eqb_neq in Hp. split; [intros [H _]; contradiction | reflexivity].
  - right. apply Z.eqb_neq in Hp. split; [intros [H _]; contradiction | reflexivity].
Qed.

Lemma run_pipeline_cons (s : Loop) (e : Env) (rest : list Env) :
  run_pipeline s (e :: rest) =
  (fst (run_pipeline (fst (iteration s e)) rest),
   snd (iteration s e) :: snd (run_pipeline (fst (iteration s e)) rest)).
Proof.
  cbn [run_pipeline]. destruct (iteration s e) as [s1 r]. cbn [fst snd].
  destruct (run_pipeline s1 rest) as [s2 rs]. reflexivity.
Qed.

(** In a run of qualifying iterations the [i]-th alert (from [0]) is decided
    by the counter the run started from. *)
Lemma qualifying_run_status (envs : list Env) :
  forall (s : Loop),
    Forall qualifying (snd (run_pipeline s envs)) ->
    forall (i : nat) (r : Report),
      nth_error (snd (run_pipeline s envs)) i = Some (Some r) ->
      ai_status r =
      if anomaly_counter s + Z.of_nat i + 1 >=? ANOMALY_THRESHOLD then 1 else 0.
Proof.
  induction envs as [|e rest IH]; intros s Hq i r Hi.
  - destruct i; discriminate.
  - rewrite run_pipeline_cons in Hq, Hi. cbn [snd] in Hq, Hi.
    inversion Hq as [|? ? Hhd Htl]; subst.
    destruct (live e) as [x|] eqn:Hx.
    2:{ unfold iteration in Hhd. rewrite Hx in Hhd. contradiction. }
    pose proof (iteration_counter s e x Hx) as Hc.
    rewrite (iteration_live s e x Hx) in Hhd, Hi. cbv zeta in Hhd, Hi.
    cbn [snd qualifying model_prediction surge_condition] in Hhd.
    destruct Hhd as [Hp Hg].
    destruct (gate_cases (anomaly_counter s) (raw_prediction s x)
                (surge (cpu_usage x) (memory_usage x) (network_load x)))
      as [(_ & _ & Hgate) | (Hn & _)]; [|tauto].
    rewrite Hgate in Hc. cbn [fst] in Hc.
    destruct i as [|i].
    + cbn [nth_error snd] in Hi. injection Hi as <-. cbn [ai_status].
      rewrite Hgate. cbn [snd]. now rewrite Z.add_0_r.
    + cbn [nth_error] in Hi.
      rewrite <- (iteration_live s e x Hx) in Hi.
      rewrite (IH _ Htl i r Hi), Hc.
      replace (anomaly_counter s + 1 + Z.of_nat i + 1)
        with (anomaly_counter s + Z.of_nat (S i) + 1) by lia.
      reflexivity.
Qed.

(** C1.  The temporal gate is a state machine over [anomaly_counter].  On an
    iteration with a live sample: when the raw label is anomaly and the surge
    condition (cpu >= 10 or memory >= 30 or network >= 15000) holds, the
    counter grows by exactly 1; otherwise it becomes exactly 0; the alert that
    is written is 1 exactly when the new counter is at least 12.  In a run of
    consecutive qualifying iterations that starts from counter 0, the first
    eleven iterations raise no alert and the twelfth raises the first one. *)
Theorem temporal_gate_state_machine :
  (forall (s : Loop) (e : Env) (x : Sample),
      live e = Some x ->
      exists r : Report,
        snd (iteration s e) = Some r /\
        let s' := fst (iteration s e) in
        model_prediction r = raw_prediction s x /\
        (surge_condition r = true <->
         (CPU_SURGE_THRESHOLD <= cpu_usage x
          \/ MEM_SURGE_THRESHOLD <= memory_usage x
          \/ NET_SURGE_THRESHOLD <= network_load x)%Q) /\
        (qualifying (Some r) -> anomaly_counter s' = anomaly_counter s + 1) /\
        (~ qualifying (Some r) -> anomaly_counter s' = 0) /\
        (ai_status r = 1 <-> anomaly_counter s' >= ANOMALY_THRESHOLD) /\
        (ai_status r = 0 \/ ai_status r = 1) /\
        (exists before, written s' = before ++ [mkPoint (ai_status r)
           (cpu_usage x) (memory_usage x) (network_load x)]))
  /\
  (forall (s : Loop) (envs : list Env),
      anomaly_counter s = 0 ->
      Forall qualifying (snd (run_pipeline s envs)) ->
      forall (i : nat) (r : Report),
        nth_error (snd (run_pipeline s envs)) i = Some (Some r) ->
        ((i < 11)%nat -> ai_status r = 0) /\
        ((11 <= i)%nat -> ai_status r = 1)).
Proof.
  split.
  - intros s e x Hx.
    pose proof (iteration_counter s e x Hx) as Hc.
    rewrite (iteration_live s e x Hx) in *. cbv zeta in *.
    eexists; split; [reflexivity|].
    cbn [fst snd model_prediction surge_condition ai_status qualifying].
    cbn [fst] in Hc.
    set (p := raw_prediction s x) in *.
    set (g := surge _ _ _) in *.
    split; [reflexivity|]. split; [apply surge_spec|].
    rewrite Hc.
    destruct (gate_cases (anomaly_counter s) p g)
      as [(Hp & Hg & Hgate) | (Hn & Hgate)]; rewrite Hgate; cbn [fst snd].
    + repeat split; try tauto.
      * destruct (_ >=? _) eqn:Hge; [intros _; lia | discriminate].
      * destruct (_ >=? _) eqn:Hge; [reflexivity | lia].
      * destruct (_ >=? _); auto.
      * destruct (retrain_due _ _ _); cbn; eexists; reflexivity.
    + unfold ANOMALY_THRESHOLD. repeat split; try tauto; try lia; try discriminate.
      destruct (retrain_due _ _ _); cbn; eexists; reflexivity.
  - intros s envs H0 Hq i r Hi.
    rewrite (qualifying_run_status envs s Hq i r Hi), H0.
    unfold ANOMALY_THRESHOLD.
    split; intros Hlt; destruct (_ >=? _) eqn:Hge; lia.
Qed.

(** *** Rows kept by [tail] *)

Lemma tail_incl {A : Type} (n : nat) (l : list A) (x : A) :
  In x (tail n l) -> In x l.
Proof.
  unfold tail. intros H.
  rewrite <- (firstn_skipn (length l - n) l). apply in_or_app. now right.
Qed.

Lemma tail_length {A : Type} (n : nat) (l : list A) :
  length (tail n l) = Nat.min n (length l).
Proof. unfold tail. rewrite length_skipn. lia. Qed.

Lemma tail_app_last {A : Type} (n : nat) (l : list A) (x : A) :
  (0 < n)%nat -> exists before, tail n (l ++ [x]) = before ++ [x].
Proof.
  intros Hn. unfold tail. rewrite skipn_app, length_app. cbn [length].
  replace (length l + 1 - n - length l)%nat with 0%nat by lia.
  eexists. reflexivity.
Qed.

Lemma tail_tail_app {A : Type} (n : nat) (l r : list A) :
  tail n (tail n l ++ r) = tail n (l ++ r).
Proof.
  unfold tail.
  set (k := (length l - n)%nat).
  assert (Hk : skipn k l ++ r = skipn k (l ++ r)).
  { rewrite skipn_app. replace (k - length l)%nat with 0%nat by lia.
    reflexivity. }
  rewrite Hk, skipn_skipn. f_equal.
  rewrite length_skipn, !length_app. lia.
Qed.

Lemma learned_cons (e : Env) (r : option Report) (envs : list Env)
    (reports : list (option Report)) :
  learned (e :: envs) (r :: reports) =
  match live e, r with
  | Some x, Some r => if model_prediction r =? 0 then [x] else []
  | _, _ => []
  end ++ learned envs reports.
Proof. reflexivity. Qed.

Lemma route_normal (fs : Files) (p : Z) (x : Sample) (now : string) :
  p = 0 ->
  route fs p x now =
  (mkFiles (Some (tail 2000 (load_core_memory fs ++ [x])))
     (DETECTED_ANOMALIES fs) (MODEL_PKL fs) (SCALER_PKL fs),
   tail 2000 (load_core_memory fs ++ [x])).
Proof. intros ->. reflexivity. Qed.

Lemma route_anomaly (fs : Files) (p : Z) (x : Sample) (now : string) :
  p <> 0 ->
  route fs p x now =
  (mkFiles (HISTORICAL_DATA fs)
     (Some match DETECTED_ANOMALIES fs with
           | Some existing => tail 1000 (existing ++ [archived x now])
           | None => [archived x now]
           end)
     (MODEL_PKL fs) (SCALER_PKL fs),
   load_core_memory fs).
Proof.
  intros Hp. unfold route. apply Z.eqb_neq in Hp. rewrite Hp. reflexivity.
Qed.

Lemma iteration_memory (s : Loop) (e : Env) :
  load_core_memory (files (fst (iteration s e))) =
  match live e, snd (iteration s e) with
  | Some x, Some r =>
      if model_prediction r =? 0
      then tail 2000 (load_core_memory (files s) ++ [x])
      else load_core_memory (files s)
  | _, _ => load_core_memory (files s)
  end.
Proof.
  destruct (live e) as [x|] eqn:Hx.
  - destruct (iteration_files s e x Hx) as [Hh _]. cbv zeta in Hh.
    unfold load_core_memory at 1. rewrite Hh.
    rewrite (iteration_live s e x Hx). cbv zeta. cbn [snd model_prediction].
    destruct (raw_prediction_binary s x) as [H0 | H1].
    + rewrite route_normal by assumption. rewrite H0. reflexivity.
    + rewrite route_anomaly by lia. rewrite H1. reflexivity.
  - unfold iteration. rewrite Hx. reflexivity.
Qed.

(** The buffer after a run: the rows it started with followed by the
    samples learned, cut to the last 2000 once a sample was appended. *)
Lemma run_pipeline_memory (envs : list Env) :
  forall s : Loop,
    load_core_memory (files (fst (run_pipeline s envs))) =
    match learned envs (snd (run_pipeline s envs)) with
    | [] => load_core_memory (files s)
    | new => tail 2000 (load_core_memory (files s) ++ new)
    end.
Proof.
  induction envs as [|e rest IH]; intros s; [reflexivity|].
  rewrite run_pipeline_cons. cbn [fst snd]. rewrite IH, learned_cons.
  rewrite iteration_memory.
  match goal with
  | |- context [learned rest ?rs] => set (new := learned rest rs)
  end.
  destruct (live e) as [x|]; [|reflexivity].
  destruct (snd (iteration s e)) as [r|]; [|reflexivity].
  destruct (model_prediction r =? 0); [|reflexivity].
  cbn [app]. destruct new as [|y new]; [reflexivity|].
  rewrite tail_tail_app, <- app_assoc. reflexivity.
Qed.

(** C2.  An iteration with a live sample routes it by the raw model label,
    to one place only: a sample labelled normal becomes the last row of the
    training buffer (the historical CSV, cut to its last 2000 rows) and the
    anomaly archive is untouched; a sample labelled anomaly becomes the last
    row of the anomaly archive (cut to its last 1000 rows) and the training
    buffer is untouched.  Hence after any run the training buffer holds only
    rows it started with and samples whose raw label was normal. *)
Theorem routing_is_exclusive :
  (forall (s : Loop) (e : Env) (x : Sample),
      live e = Some x ->
      let before := files s in
      let after := files (fst (iteration s e)) in
      (raw_prediction s x = 0 \/ raw_prediction s x = 1) /\
      (raw_prediction s x = 0 ->
       HISTORICAL_DATA after
         = Some (tail 2000 (load_core_memory before ++ [x])) /\
       (exists rows, load_core_memory after = rows ++ [x]) /\
       DETECTED_ANOMALIES after = DETECTED_ANOMALIES before) /\
      (raw_prediction s x = 1 ->
       HISTORICAL_DATA after = HISTORICAL_DATA before /\
       (exists rows, DETECTED_ANOMALIES after
                     = Some (rows ++ [archived x (utcnow e)])) /\
       DETECTED_ANOMALIES after
         = Some match DETECTED_ANOMALIES before with
                | Some existing =>
                    tail 1000 (existing ++ [archived x (utcnow e)])
                | None => [archived x (utcnow e)]
                end))
  /\
  (forall (s : Loop) (envs : list Env),
      let final := load_core_memory (files (fst (run_pipeline s envs))) in
      let new := learned envs (snd (run_pipeline s envs)) in
      final = match new with
              | [] => load_core_memory (files s)
              | _ => tail 2000 (load_core_memory (files s) ++ new)
              end /\
      forall row : Sample,
        In row final -> In row (load_core_memory (files s)) \/ In row new).
Proof.
  split.
  - intros s e x Hx before after.
    destruct (iteration_files s e x Hx) as [Hh Ha]. cbv zeta in Hh, Ha.
    fold after in Hh, Ha. fold before in Hh, Ha.
    split; [apply raw_prediction_binary|]. split; intros Hp.
    + rewrite route_normal in Hh, Ha by assumption. cbn in Hh, Ha.
      repeat split; try assumption.
      unfold load_core_memory at 1. rewrite Hh.
      apply tail_app_last. lia.
    + rewrite route_anomaly in Hh, Ha by lia. cbn in Hh, Ha.
      repeat split; try assumption.
      rewrite Ha. destruct (DETECTED_ANOMALIES before) as [existing|].
      * destruct (tail_app_last 1000 existing (archived x (utcnow e)))
          as [rows Hrows]; [lia|]. exists rows. now rewrite Hrows.
      * exists []. reflexivity.
  - intros s envs final new. subst final new.
    rewrite run_pipeline_memory.
    destruct (learned envs _) as [|y new]; (split; [reflexivity|]);
      intros row Hin; [now left|].
    apply tail_incl, in_app_or in Hin. exact Hin.
Qed.

(** C3, as the code has it.  On an iteration with a live sample, retraining
    fires exactly when the training buffer (after this iteration's routing)
    holds at least 30 rows and strictly more than 300 seconds have passed
    since the last retraining.  So it never fires with 29 rows, and it fires
    with exactly 30 rows once more than 300 seconds have passed.  A
    retraining restarts the clock and leaves a fitted model in place; without
    one the clock and the model stay as they were. *)
Theorem retraining_fires_iff :
  forall (s : Loop) (e : Env) (x : Sample),
    live e = Some x ->
    exists r : Report,
      snd (iteration s e) = Some r /\
      let s' := fst (iteration s e) in
      let elapsed := (time_at_check e - last_retrain_time s)%Q in
      updated_memory r = load_core_memory (files s') /\
      (retrained r = true <->
       (30 <= length (updated_memory r))%nat /\ (300 < elapsed)%Q) /\
      (length (updated_memory r) = 29%nat -> retrained r = false) /\
      (length (updated_memory r) = 30%nat -> (300 < elapsed)%Q ->
       retrained r = true) /\
      (retrained r = true ->
       last_retrain_time s' = time_after_retrain e /\ ai_is_ready s' = true) /\
      (retrained r = false ->
       last_retrain_time s' = last_retrain_time s /\ brain s' = brain s).
Proof.
  intros s e x Hx.
  pose proof (iteration_memory s e) as Hm.
  rewrite Hx in Hm.
  rewrite (iteration_live s e x Hx) in *. cbv zeta in *.
  eexists; split; [reflexivity|].
  cbn [fst snd updated_memory retrained model_prediction] in *.
  set (p := raw_prediction s x) in *.
  set (routed := route (files s) p x (utcnow e)) in *.
  assert (Hdue : forall up now last,
             retrain_due up now last = true <->
             (30 <= length up)%nat /\ (300 < now - last)%Q).
  { intros up now last. unfold retrain_due.
    rewrite andb_true_iff, Nat.leb_le, negb_true_iff.
    split; intros [Hl Ht]; split; try assumption.
    - apply Qnot_le_lt. intros Hle. apply Qle_bool_iff in Hle. congruence.
    - destruct (Qle_bool (now - last) 300) eqn:Hb; [|reflexivity].
      apply Qle_bool_iff in Hb. exfalso. eapply Qlt_not_le; eassumption. }
  split.
  { rewrite Hm. subst routed. destruct (raw_prediction_binary s x) as [H0|H1];
      fold p in H0 || fold p in H1.
    - rewrite route_normal by assumption. now rewrite H0.
    - rewrite route_anomaly by lia. now rewrite H1. }
  split; [apply Hdue|].
  split.
  { intros Hlen. destruct (retrain_due _ _ _) eqn:Hd; [|reflexivity].
    apply Hdue in Hd. lia. }
  split.
  { intros Hlen Ht. apply Hdue. split; [lia | assumption]. }
  split; intros Hr; rewrite Hr; cbn; auto.
Qed.

End PipelineProperties.

(** *** The gate, the routing and the retraining test on concrete runs *)

(** Twelve spikes in a row under a model that flags each of them: the
    eleventh raises no alert, the twelfth does. *)
Lemma temporal_gate_witness :
  let out := snd (run_pipeline alarmed (repeat (at_time spike 0) 12)) in
  Forall qualifying out /\
  (exists r, nth_error out 10 = Some (Some r) /\ ai_status r = 0) /\
  (exists r, nth_error out 11 = Some (Some r) /\ ai_status r = 1).
Proof.
  cbv zeta.
  assert (Hq : Forall qualifying
                 (snd (run_pipeline alarmed (repeat (at_time spike 0) 12)))).
  { vm_compute. repeat constructor. }
  pose proof (proj2 temporal_gate_state_machine alarmed
                (repeat (at_time spike 0) 12) eq_refl Hq) as H.
  split; [exact Hq|]. split.
  - eexists. split; [vm_compute; reflexivity|].
    eapply (proj1 (H 10%nat _ _)). lia.
  - eexists. split; [vm_compute; reflexivity|].
    eapply (proj2 (H 11%nat _ _)). lia.
  Unshelve. all: vm_compute; reflexivity.
Defined.

(** A counter that climbed to 11 falls to 0, not 10, on one normal sample. *)
Example gate_resets_from_eleven :
  anomaly_counter
    (fst (iteration (mkLoop 11 (Some (1, tt)) 0 no_files []) (at_time spike 0)))
  = 0.
Proof. reflexivity. Qed.

(** A calm sample under no model goes to the buffer; a spike under the
    flagging model goes to the archive. *)
Lemma routing_witness :
  (HISTORICAL_DATA (files (fst (iteration (untrained 2) (at_time calm 0))))
   = Some [calm; calm; calm] /\
   DETECTED_ANOMALIES (files (fst (iteration (untrained 2) (at_time calm 0))))
   = None) /\
  (HISTORICAL_DATA (files (fst (iteration alarmed (at_time spike 0)))) = None /\
   DETECTED_ANOMALIES (files (fst (iteration alarmed (at_time spike 0))))
   = Some [archived spike "2024-01-01T00:00:00"]).
Proof.
  split.
  - destruct (proj1 routing_is_exclusive (untrained 2) (at_time calm 0) calm
                eq_refl) as (_ & Hn & _).
    destruct (Hn eq_refl) as (Hh & _ & Ha). split; [exact Hh | exact Ha].
  - destruct (proj1 routing_is_exclusive alarmed (at_time spike 0) spike
                eq_refl) as (_ & _ & Han).
    destruct (Han eq_refl) as (Hh & _ & Ha). split; [exact Hh | exact Ha].
Defined.

(** With 29 rows on disk a calm sample makes 30; at 301 seconds the model is
    retrained. *)
Lemma retraining_fires_witness :
  exists r : Report,
    snd (iteration (untrained 29) (at_time calm 301)) = Some r /\
    length (updated_memory r) = 30%nat /\
    retrained r = true.
Proof.
  destruct (retraining_fires_iff (untrained 29) (at_time calm 301) calm eq_refl)
    as (r & Hr & H).
  cbv zeta in H. destruct H as (_ & _ & _ & Hfire & _).
  exists r. split; [exact Hr|].
  assert (Hlen : length (updated_memory r) = 30%nat).
  { vm_compute in Hr. injection Hr as <-. reflexivity. }
  split; [exact Hlen|]. apply Hfire; [exact Hlen|]. vm_compute. reflexivity.
Defined.

(** At exactly 300 seconds, with 30 rows buffered, nothing is retrained:
    the test of line 281 is strict. *)
Lemma retraining_waits_at_300 :
  exists r : Report,
    snd (iteration (untrained 29) (at_time calm 300)) = Some r /\
    (30 <= length (updated_memory r))%nat /\
    (300 <= time_at_check (at_time calm 300)
            - last_retrain_time (untrained 29))%Q /\
    retrained r = false.
Proof.
  eexists. split; [vm_compute; reflexivity|].
  split; [vm_compute; lia|]. split; [vm_compute; discriminate | reflexivity].
Qed.

(** ** The ensemble combiner *)

Section EnsembleArithmetic.
Local Open Scope Q_scope.

(** *** Division, sums and maxima *)

Lemma truediv_ok (a b : Q) : ~ b == 0 -> truediv a b = Ok (a / b).
Proof.
  intros Hb. unfold truediv. destruct (Qeq_bool b 0) eqn:E; [|reflexivity].
  apply Qeq_bool_iff in E. contradiction.
Qed.

Lemma truediv_zero (a b : Q) :
  b == 0 -> truediv a b = Raise (ZeroDivisionError "float division by zero").
Proof.
  intros Hb. unfold truediv. apply Qeq_bool_iff in Hb. now rewrite Hb.
Qed.

Lemma for_each_truediv (m : Q) (l : list Q) :
  ~ m == 0 ->
  for_each (fun s => truediv s m) l = Ok (map (fun s => s / m) l).
Proof.
  intros Hm. induction l as [|x l IH]; [reflexivity|].
  cbn [for_each map]. rewrite truediv_ok by assumption. cbn [bind].
  rewrite IH. reflexivity.
Qed.

Lemma Qsum_acc (l : list Q) : forall a : Q, fold_left Qplus l a == a + Qsum l.
Proof.
  unfold Qsum. induction l as [|x l IH]; intros a; cbn [fold_left].
  - ring.
  - rewrite (IH (a + x)), (IH (0 + x)). ring.
Qed.

Lemma Qsum_cons (x : Q) (l : list Q) : Qsum (x :: l) == x + Qsum l.
Proof. unfold Qsum at 1. cbn [fold_left]. rewrite Qsum_acc. ring. Qed.

Lemma Qsum_nonneg (l : list Q) : Forall (fun x => 0 <= x) l -> 0 <= Qsum l.
Proof.
  induction 1 as [|x l Hx _ IH]; [discriminate|].
  rewrite Qsum_cons. lra.
Qed.

Lemma Qsum_map_ext {A : Type} (f g : A -> Q) (l : list A) :
  (forall x, In x l -> f x == g x) -> Qsum (map f l) == Qsum (map g l).
Proof.
  induction l as [|x l IH]; intros H; [reflexivity|].
  cbn [map]. rewrite !Qsum_cons.
  assert (E1 : f x == g x) by (apply H; now left).
  assert (E2 : Qsum (map f l) == Qsum (map g l))
    by (apply IH; intros y Hy; apply H; now right).
  rewrite E1, E2. reflexivity.
Qed.

Lemma Qsum_ge_member (l : list Q) (x : Q) :
  Forall (fun y => 0 <= y) l -> In x l -> x <= Qsum l.
Proof.
  induction 1 as [|y l Hy Hl IH]; intros Hin; [contradiction|].
  rewrite Qsum_cons. destruct Hin as [-> | Hin].
  - pose proof (Qsum_nonneg l Hl). lra.
  - specialize (IH Hin). lra.
Qed.

Lemma max_from_step (x y : Q) (l : list Q) :
  max_from x (y :: l) = max_from (if Qle_bool y x then x else y) l.
Proof. reflexivity. Qed.

Lemma max_from_ge_first (l : list Q) : forall x : Q, x <= max_from x l.
Proof.
  induction l as [|y l IH]; intros x; [apply Qle_refl|].
  rewrite max_from_step. destruct (Qle_bool y x) eqn:E; [apply IH|].
  eapply Qle_trans; [|apply IH].
  apply Qlt_le_weak, Qnot_le_lt. intros H. apply Qle_bool_iff in H. congruence.
Qed.

Lemma max_from_ge (l : list Q) :
  forall x : Q, Forall (fun y => y <= max_from x l) (x :: l).
Proof.
  induction l as [|y l IH]; intros x.
  - constructor; [apply Qle_refl | constructor].
  - constructor; [apply max_from_ge_first|].
    rewrite max_from_step. specialize (IH (if Qle_bool y x then x else y)).
    inversion IH as [|? ? Hhd Htl]; subst. constructor; [|exact Htl].
    destruct (Qle_bool y x) eqn:E; [|exact Hhd].
    apply Qle_bool_iff in E. eapply Qle_trans; eassumption.
Qed.

Lemma max_from_in (l : list Q) : forall x : Q, In (max_from x l) (x :: l).
Proof.
  induction l as [|y l IH]; intros x; [now left|].
  rewrite max_from_step. destruct (Qle_bool y x).
  - destruct (IH x) as [H | H]; [now left | right; now right].
  - right. exact (IH y).
Qed.

Lemma maximum_cons (x : Q) (l : list Q) : maximum (x :: l) = max_from x l.
Proof. reflexivity. Qed.

Lemma positive_length (A : Type) (l : list A) :
  l <> [] -> ~ inject_Z (Z.of_nat (length l)) == 0.
Proof.
  intros Hl H. destruct l as [|x l]; [congruence|].
  unfold Qeq in H. cbn in H. lia.
Qed.

Lemma length_positive_Q (A : Type) (l : list A) :
  l <> [] -> 0 < inject_Z (Z.of_nat (length l)).
Proof.
  intros Hl. destruct l as [|x l]; [congruence|].
  unfold Qlt. cbn. lia.
Qed.

End EnsembleArithmetic.

Section EnsembleVoting.
Local Open Scope Q_scope.

(** *** Scores and predictions read off the votes *)

Lemma abs_scores_cons (item : string * Vote) (votes : dict Vote) :
  abs_scores_of (item :: votes) =
  match vote_score (snd item) with
  | Some s => [Qabs s]
  | None => []
  end ++ abs_scores_of votes.
Proof. reflexivity. Qed.

Lemma predictions_cons (item : string * Vote) (votes : dict Vote) :
  predictions_of (item :: votes) =
  match vote_prediction (snd item) with
  | Some p => [p]
  | None => []
  end ++ predictions_of votes.
Proof. reflexivity. Qed.

Lemma abs_scores_nonneg (votes : dict Vote) :
  Forall (fun s => 0 <= s) (abs_scores_of votes).
Proof.
  induction votes as [|[name v] votes IH]; [constructor|].
  rewrite abs_scores_cons. destruct v as [p s | msg]; cbn [snd vote_score app].
  - constructor; [apply Qabs_nonneg | exact IH].
  - exact IH.
Qed.

Lemma abs_scores_of_scored_items (votes : dict Vote) :
  map snd (scored_items votes) = abs_scores_of votes.
Proof.
  induction votes as [|[name v] votes IH]; [reflexivity|].
  rewrite abs_scores_cons. unfold scored_items in *. cbn [flat_map].
  rewrite map_app, IH. destruct v; reflexivity.
Qed.

Lemma predictions_length_scores (votes : dict Vote) :
  length (predictions_of votes) = length (abs_scores_of votes).
Proof.
  induction votes as [|[name v] votes IH]; [reflexivity|].
  rewrite abs_scores_cons, predictions_cons, !length_app, IH.
  destruct v; reflexivity.
Qed.

(** *** Soft voting *)

Lemma Qdiv_by_zero (x m : Q) : m == 0 -> x / m == 0.
Proof. intros Hm. unfold Qdiv. rewrite Hm. apply Qmult_0_r. Qed.

Lemma max_zero_all_zero (first : Q) (rest : list Q) :
  Forall (fun s => 0 <= s) (first :: rest) ->
  max_from first rest == 0 ->
  forall s, In s (first :: rest) -> s == 0.
Proof.
  intros Hpos Hmax s Hs.
  pose proof (max_from_ge rest first) as Hle.
  rewrite Forall_forall in Hpos, Hle.
  specialize (Hpos s Hs). specialize (Hle s Hs). lra.
Qed.

Lemma normalize_ok (first : Q) (rest : list Q) :
  let m := max_from first rest in
  let divisor := if Qeq_bool m 0 then 1 else m in
  ~ divisor == 0 /\
  normalize first rest = Ok (map (fun s => s / divisor) (first :: rest)).
Proof.
  cbv zeta. unfold normalize.
  set (m := max_from first rest).
  assert (Hd : ~ (if Qeq_bool m 0 then 1 else m) == 0).
  { destruct (Qeq_bool m 0) eqn:E; [discriminate|].
    intros H. apply Qeq_bool_iff in H. congruence. }
  split; [exact Hd|]. now apply for_each_truediv.
Qed.

Lemma np_mean_ok (l : list Q) : l <> [] -> np_mean l = Ok (mean l).
Proof.
  intros Hl. unfold np_mean, mean. apply truediv_ok.
  now apply positive_length.
Qed.

Lemma mean_map_ext (f g : Q -> Q) (l : list Q) :
  (forall x, In x l -> f x == g x) -> mean (map f l) == mean (map g l).
Proof.
  intros H. unfold mean. rewrite !length_map, (Qsum_map_ext f g l H).
  reflexivity.
Qed.

(** Soft voting on at least one score returns, and what it returns. *)
Lemma soft_voting_ok (self : EnsembleDetector) (votes : dict Vote) :
  abs_scores_of votes <> [] ->
  exists sc : Q,
    _soft_voting self votes
    = Ok (sc, if Qle_bool (threshold self) sc then 1%Z else 0%Z) /\
    sc == soft_score_spec (abs_scores_of votes).
Proof.
  intros Hne. unfold _soft_voting, soft_score_spec.
  pose proof (abs_scores_nonneg votes) as Hpos.
  destruct (abs_scores_of votes) as [|first rest]; [congruence|].
  destruct (normalize_ok first rest) as [Hd Hn]. cbv zeta in Hd, Hn.
  rewrite Hn. cbn [bind]. rewrite np_mean_ok by discriminate. cbn [bind].
  eexists. split; [reflexivity|].
  apply mean_map_ext. intros s Hs. rewrite maximum_cons.
  destruct (Qeq_bool (max_from first rest) 0) eqn:E; [|reflexivity].
  apply Qeq_bool_iff in E.
  rewrite (max_zero_all_zero first rest Hpos E s Hs).
  unfold Qdiv. now rewrite !Qmult_0_l.
Qed.

Lemma label_threshold (thr sc : Q) :
  ((if Qle_bool thr sc then 1%Z else 0%Z) = 1%Z <-> thr <= sc) /\
  ((if Qle_bool thr sc then 1%Z else 0%Z) = 0%Z
   \/ (if Qle_bool thr sc then 1%Z else 0%Z) = 1%Z).
Proof.
  destruct (Qle_bool thr sc) eqn:E.
  - apply Qle_bool_iff in E. split; [tauto | now right].
  - split; [|now left]. split; [discriminate|].
    intros H. apply Qle_bool_iff in H. congruence.
Qed.

(** *** Hard voting *)

Lemma Zsum_acc (l : list Z) : forall a : Z, fold_left Z.add l a = (a + Zsum l)%Z.
Proof.
  unfold Zsum. induction l as [|x l IH]; intros a; cbn [fold_left]; [lia|].
  rewrite (IH (a + x)%Z), (IH (0 + x)%Z). lia.
Qed.

Lemma Zsum_binary (l : list Z) :
  Forall (fun p => p = 0%Z \/ p = 1%Z) l ->
  Zsum l = Z.of_nat (length (filter (Z.eqb 1) l)).
Proof.
  induction 1 as [|p l Hp _ IH]; [reflexivity|].
  unfold Zsum. cbn [fold_left]. rewrite Zsum_acc, IH.
  destruct Hp as [-> | ->].
  - change (filter (Z.eqb 1) (0%Z :: l)) with (filter (Z.eqb 1) l). lia.
  - change (filter (Z.eqb 1) (1%Z :: l)) with (1%Z :: filter (Z.eqb 1) l).
    cbn [length]. lia.
Qed.

Lemma hard_voting_ok (votes : dict Vote) :
  predictions_of votes <> [] ->
  let count := inject_Z (Zsum (predictions_of votes)) in
  let total := Z.of_nat (length (predictions_of votes)) in
  _hard_voting votes
  = Ok (count / inject_Z total,
        if Qle_bool (inject_Z (total * 2) / 3) count then 1%Z else 0%Z).
Proof.
  intros Hne. cbv zeta. unfold _hard_voting.
  destruct (predictions_of votes) as [|p ps] eqn:E; [congruence|].
  rewrite truediv_ok by (apply positive_length; discriminate). cbn [bind].
  rewrite truediv_ok by discriminate. reflexivity.
Qed.

(** [count >= total * 2 / 3] is [count / total >= 2/3]. *)
Lemma two_thirds (count total : Z) :
  (0 < total)%Z ->
  inject_Z (total * 2) / 3 <= inject_Z count <->
  2 # 3 <= inject_Z count / inject_Z total.
Proof.
  intros Ht.
  assert (HT : 0 < inject_Z total) by (unfold Qlt; cbn; lia).
  assert (Hn : ~ inject_Z total == 0) by lra.
  rewrite inject_Z_mult.
  set (T := inject_Z total) in *. set (C := inject_Z count).
  assert (E1 : T * inject_Z 2 / 3 == (2 # 3) * T) by (field; discriminate).
  assert (E2 : C == C / T * T) by (field; exact Hn).
  rewrite E1. rewrite E2 at 1.
  apply Qmult_le_r. exact HT.
Qed.

(** *** Weighted voting *)

Lemma Qsum_positive (l : list Q) :
  l <> [] -> Forall (fun x => 0 < x) l -> 0 < Qsum l.
Proof.
  intros Hne Hpos. destruct Hpos as [|x l Hx Hl]; [congruence|].
  rewrite Qsum_cons.
  assert (0 <= Qsum l).
  { apply Qsum_nonneg. eapply Forall_impl; [|exact Hl].
    intros y Hy. now apply Qlt_le_weak. }
  lra.
Qed.

Lemma Qsum_all_zero {A : Type} (f : A -> Q) (l : list A) :
  (forall x, In x l -> f x == 0) -> Qsum (map f l) == 0.
Proof.
  intros H. rewrite (Qsum_map_ext f (fun _ => 0) l H).
  induction l as [|x l IH]; [reflexivity|].
  cbn [map]. rewrite Qsum_cons, IH; [ring|].
  intros y Hy. apply H. now right.
Qed.

Lemma table_weight_positive (model_name : string) (default : Q) :
  0 < default -> 0 < dict_get MODEL_WEIGHTS model_name default.
Proof.
  intros Hd. unfold dict_get, MODEL_WEIGHTS. cbn [dict_lookup].
  repeat match goal with
         | |- context [String.eqb ?a ?b] => destruct (String.eqb a b)
         end; try reflexivity; exact Hd.
Qed.

Lemma weight_positive (self : EnsembleDetector) (model_name : string) :
  models self <> [] -> 0 < weight_of self model_name.
Proof.
  intros Hm. apply table_weight_positive.
  apply Qlt_shift_div_l; [now apply length_positive_Q | reflexivity].
Qed.

Lemma scored_items_cons (item : string * Vote) (votes : dict Vote) :
  scored_items (item :: votes) =
  match vote_score (snd item) with
  | Some s => [(fst item, Qabs s)]
  | None => []
  end ++ scored_items votes.
Proof. reflexivity. Qed.

(** The accumulation loop adds, for each scoring model, its weighted
    [|score|] and its weight. *)
Lemma weighted_sums_ok (self : EnsembleDetector) (items : dict Vote) :
  models self <> [] ->
  forall ws w : Q,
  exists ws' w' : Q,
    weighted_sums self items ws w = Ok (ws', w') /\
    ws' == ws + Qsum (map (fun item => snd item * weight_of self (fst item))
                        (scored_items items)) /\
    w' == w + Qsum (map (fun item => weight_of self (fst item))
                      (scored_items items)).
Proof.
  intros Hm. induction items as [|[name v] items IH]; intros ws w.
  - exists ws, w. cbn. repeat split; ring.
  - cbn [weighted_sums]. rewrite scored_items_cons.
    destruct v as [p s | msg]; cbn [vote_score snd fst app map].
    + rewrite truediv_ok by (now apply positive_length). cbn [bind].
      fold (weight_of self name).
      destruct (IH (ws + Qabs s * weight_of self name) (w + weight_of self name))
        as (ws' & w' & Hrun & Hws & Hw).
      exists ws', w'. split; [exact Hrun|].
      rewrite !Qsum_cons. cbn [fst snd]. split; [rewrite Hws | rewrite Hw]; ring.
    + apply IH.
Qed.

Lemma weighted_sums_unscored (self : EnsembleDetector) (items : dict Vote) :
  abs_scores_of items = [] ->
  forall ws w : Q, weighted_sums self items ws w = Ok (ws, w).
Proof.
  induction items as [|[name v] items IH]; intros Hs ws w; [reflexivity|].
  rewrite abs_scores_cons in Hs. cbn [weighted_sums].
  destruct v as [p s | msg]; cbn [vote_score snd app] in *; [discriminate|].
  now apply IH.
Qed.

(** Weighted voting on at least one score returns, and what it returns. *)
Lemma weighted_voting_ok (self : EnsembleDetector) (votes : dict Vote) :
  models self <> [] ->
  abs_scores_of votes <> [] ->
  exists sc : Q,
    _weighted_voting self votes
    = Ok (sc, if Qle_bool (threshold self) sc then 1%Z else 0%Z) /\
    sc == weighted_score_spec self votes.
Proof.
  intros Hm Hne. unfold _weighted_voting, weighted_score_spec. cbv zeta.
  destruct (weighted_sums_ok self votes Hm 0 0) as (ws & w & Hrun & Hws & Hw).
  rewrite Hrun. cbn [bind].
  set (items := scored_items votes) in *.
  set (S1 := Qsum (map (fun item => snd item * weight_of self (fst item)) items)) in *.
  set (S2 := Qsum (map (fun item => weight_of self (fst item)) items)) in *.
  assert (Hitems : map snd items = abs_scores_of votes)
    by apply abs_scores_of_scored_items.
  assert (HS2 : 0 < S2).
  { apply Qsum_positive.
    - intros E. apply map_eq_nil in E. apply Hne. rewrite <- Hitems, E.
      reflexivity.
    - apply Forall_map, Forall_forall. intros item _. now apply weight_positive. }
  assert (Hwpos : 0 < w) by lra.
  assert (E0 : Qeq_bool w 0 = false).
  { destruct (Qeq_bool w 0) eqn:E; [|reflexivity].
    apply Qeq_bool_iff in E. lra. }
  assert (E1 : Qle_bool w 0 = false).
  { destruct (Qle_bool w 0) eqn:E; [|reflexivity].
    apply Qle_bool_iff in E. lra. }
  rewrite E0, E1. cbn [negb].
  rewrite truediv_ok by lra. cbn [bind].
  pose proof (abs_scores_nonneg votes) as Hpos.
  destruct (abs_scores_of votes) as [|first rest] eqn:Escores; [congruence|].
  cbn [max_default]. rewrite maximum_cons.
  set (m := max_from first rest).
  assert (Hws' : ws == S1) by lra. assert (Hw' : w == S2) by lra.
  destruct (Qle_bool m 0) eqn:Em; cbn [negb bind].
  - eexists. split; [reflexivity|].
    apply Qle_bool_iff in Em.
    assert (Hm0 : m == 0).
    { pose proof (max_from_ge_first rest first) as Hge.
      inversion Hpos; subst. fold m in Hge. lra. }
    rewrite (Qdiv_by_zero _ m Hm0).
    assert (HS1 : S1 == 0).
    { apply Qsum_all_zero. intros item Hin.
      assert (Hs : snd item == 0).
      { apply (max_zero_all_zero first rest Hpos Hm0).
        rewrite <- Hitems. now apply in_map. }
      rewrite Hs. ring. }
    rewrite Hws', HS1. unfold Qdiv. ring.
  - rewrite truediv_ok.
    + cbn [bind]. eexists. split; [reflexivity|]. rewrite Hws', Hw'.
      reflexivity.
    + intros H. apply Qeq_bool_iff in H.
      assert (Hle : Qle_bool m 0 = true) by (apply Qle_bool_iff; apply Qeq_bool_iff in H; lra).
      congruence.
Qed.

(** *** Collecting the votes *)

Lemma ask_scored (model : Estimator) (fs : list Q) (v : Vote) :
  ask model fs = Ok v ->
  exists (p : Z) (s : Q), v = Scored p s /\ (p = 0%Z \/ p = 1%Z).
Proof.
  unfold ask. destruct (est_predict model fs) as [pred|e]; [|discriminate].
  cbn [bind].
  match goal with
  | |- bind ?r _ = _ -> _ => destruct r as [s|e]; [|discriminate]
  end.
  cbn [bind]. intros H. injection H as <-.
  eexists _, _. split; [reflexivity|]. destruct (pred =? -1)%Z; auto.
Qed.

Lemma recorded_scored (fs : list Q) (item : string * Estimator) :
  is_scored (recorded fs item) = answers fs item.
Proof.
  unfold is_scored, recorded, answers, vote_of. cbn [snd].
  destruct (ask (snd item) fs) as [v|e] eqn:E; [|reflexivity].
  destruct (ask_scored _ _ _ E) as (p & s & -> & _). reflexivity.
Qed.

Lemma recorded_binary (fs : list Q) (item : string * Estimator) :
  binary_vote (recorded fs item).
Proof.
  unfold binary_vote, recorded, vote_of. cbn [snd].
  destruct (ask (snd item) fs) as [v|e] eqn:E; [|exact I].
  destruct (ask_scored _ _ _ E) as (p & s & -> & Hp). exact Hp.
Qed.

Lemma dict_set_Forall {V : Type} (P : string * V -> Prop) (d : dict V)
    (k : string) (v : V) :
  Forall P d -> P (k, v) -> Forall P (dict_set d k v).
Proof.
  intros Hd Hv. induction Hd as [|[k' v'] d Hhd Htl IH]; cbn [dict_set].
  - constructor; [exact Hv | constructor].
  - destruct (String.eqb k' k); constructor; assumption.
Qed.

Lemma collect_votes_binary (fs : list Q) (items : dict Estimator) :
  forall acc : dict Vote,
    Forall binary_vote acc -> Forall binary_vote (collect_votes items fs acc).
Proof.
  induction items as [|[name model] items IH]; intros acc Hacc; [exact Hacc|].
  cbn [collect_votes]. apply IH. apply dict_set_Forall; [exact Hacc|].
  exact (recorded_binary fs (name, model)).
Qed.

Lemma predictions_binary (votes : dict Vote) :
  Forall binary_vote votes ->
  Forall (fun p => p = 0%Z \/ p = 1%Z) (predictions_of votes).
Proof.
  induction 1 as [|[name v] votes Hv _ IH]; [constructor|].
  rewrite predictions_cons. destruct v as [p s | msg]; cbn [snd vote_prediction app].
  - constructor; [exact Hv | exact IH].
  - exact IH.
Qed.

(** **** Distinct model names *)

Lemma distinct_NoDup (ks : list string) : distinct ks = true <-> NoDup ks.
Proof.
  induction ks as [|k ks IH]; cbn [distinct].
  - split; [constructor | reflexivity].
  - rewrite andb_true_iff, negb_true_iff, IH. split.
    + intros [Hk Hks]. constructor; [|exact Hks].
      intros Hin. assert (existsb (String.eqb k) ks = true); [|congruence].
      apply existsb_exists. exists k. split; [exact Hin | apply String.eqb_refl].
    + intros H. inversion H as [|? ? Hk Hks]; subst. split; [|exact Hks].
      destruct (existsb (String.eqb k) ks) eqn:E; [|reflexivity].
      apply existsb_exists in E. destruct E as (k' & Hin & Heq).
      apply String.eqb_eq in Heq. subst k'. contradiction.
Qed.

Lemma dict_set_fresh {V : Type} (d : dict V) (k : string) (v : V) :
  ~ In k (keys d) -> dict_set d k v = d ++ [(k, v)].
Proof.
  induction d as [|[k' v'] d IH]; intros Hk; [reflexivity|].
  cbn [dict_set app]. cbn in Hk.
  destruct (String.eqb k' k) eqn:E.
  - apply String.eqb_eq in E. tauto.
  - rewrite IH by tauto. reflexivity.
Qed.

(** With distinct model names every model gets an entry of its own, in the
    order of [self.models]. *)
Lemma collect_votes_distinct (fs : list Q) (items : dict Estimator) :
  forall acc : dict Vote,
    NoDup (keys acc ++ keys items) ->
    collect_votes items fs acc = acc ++ map (recorded fs) items.
Proof.
  induction items as [|[name model] items IH]; intros acc Hnd.
  - cbn. now rewrite app_nil_r.
  - cbn [collect_votes]. cbn [keys map fst] in Hnd.
    rewrite dict_set_fresh.
    + rewrite IH.
      * rewrite <- app_assoc. reflexivity.
      * unfold keys in *. rewrite map_app, <- app_assoc. exact Hnd.
    + apply NoDup_remove_2 in Hnd. intros Hin. apply Hnd, in_or_app. now left.
Qed.

Lemma lookup_recorded (fs : list Q) (items : dict Estimator)
    (name : string) (model : Estimator) :
  NoDup (keys items) ->
  In (name, model) items ->
  dict_lookup (map (recorded fs) items) name = Some (vote_of model fs).
Proof.
  induction items as [|[k m] items IH]; intros Hnd Hin; [contradiction|].
  cbn [map recorded dict_lookup fst snd]. cbn [keys map fst] in Hnd.
  inversion Hnd as [|? ? Hk Hks]; subst.
  destruct Hin as [Heq | Hin].
  - injection Heq as -> ->. now rewrite String.eqb_refl.
  - destruct (String.eqb k name) eqn:E.
    + apply String.eqb_eq in E. subst k. exfalso. apply Hk.
      change name with (fst (name, model)). now apply in_map.
    + now apply IH.
Qed.

Lemma keys_recorded (fs : list Q) (items : dict Estimator) :
  keys (map (recorded fs) items) = keys items.
Proof. unfold keys. rewrite map_map. reflexivity. Qed.

Lemma filter_recorded (fs : list Q) (items : dict Estimator) :
  filter is_scored (map (recorded fs) items)
  = map (recorded fs) (filter (answers fs) items).
Proof.
  induction items as [|item items IH]; [reflexivity|].
  cbn [map filter]. rewrite recorded_scored, IH.
  destruct (answers fs item); reflexivity.
Qed.

Lemma NoDup_keys_filter {V : Type} (f : string * V -> bool) (d : dict V) :
  NoDup (keys d) -> NoDup (keys (filter f d)).
Proof.
  induction d as [|item d IH]; intros Hnd; [constructor|].
  cbn [keys map] in Hnd. inversion Hnd as [|? ? Hk Hks]; subst.
  cbn [filter]. destruct (f item); [|now apply IH].
  cbn [keys map]. constructor; [|now apply IH].
  intros Hin. apply Hk. unfold keys in *. apply in_map_iff in Hin.
  destruct Hin as (x & Hx & Hin). apply filter_In in Hin.
  apply in_map_iff. exists x. tauto.
Qed.

(** *** What the combiner reads of the votes *)

Lemma predictions_filter (votes : dict Vote) :
  predictions_of (filter is_scored votes) = predictions_of votes.
Proof.
  induction votes as [|[name v] votes IH]; [reflexivity|].
  cbn [filter]. destruct v as [p s | msg]; cbn [is_scored snd].
  - rewrite !predictions_cons, IH. reflexivity.
  - rewrite predictions_cons, IH. reflexivity.
Qed.

Lemma abs_scores_filter (votes : dict Vote) :
  abs_scores_of (filter is_scored votes) = abs_scores_of votes.
Proof.
  induction votes as [|[name v] votes IH]; [reflexivity|].
  cbn [filter]. destruct v as [p s | msg]; cbn [is_scored snd].
  - rewrite !abs_scores_cons, IH. reflexivity.
  - rewrite abs_scores_cons, IH. reflexivity.
Qed.

Lemma weighted_sums_filter (self : EnsembleDetector) (votes : dict Vote) :
  forall ws w : Q,
    weighted_sums self (filter is_scored votes) ws w
    = weighted_sums self votes ws w.
Proof.
  induction votes as [|[name v] votes IH]; intros ws w; [reflexivity|].
  cbn [filter]. destruct v as [p s | msg]; cbn [is_scored snd weighted_sums vote_score].
  - destruct (truediv _ _); cbn [bind]; [apply IH | reflexivity].
  - apply IH.
Qed.

(** Entries without a score play no part in the decision. *)
Lemma aggregate_filter (self : EnsembleDetector) (votes : dict Vote) :
  aggregate self (filter is_scored votes) = aggregate self votes.
Proof.
  unfold aggregate, _hard_voting, _soft_voting, _weighted_voting.
  rewrite predictions_filter, abs_scores_filter, weighted_sums_filter.
  reflexivity.
Qed.

Lemma predict_unfold (self : EnsembleDetector) (features fs : list Q) :
  length features = 3%nat ->
  scale self features = Ok fs ->
  predict self features =
  match aggregate self (collect_votes (models self) fs []) with
  | Ok (sc, label) => Ok (sc, label, collect_votes (models self) fs [])
  | Raise e => Raise e
  end.
Proof.
  intros Hlen Hscale. unfold predict. rewrite Hlen, Hscale. cbn [Nat.eqb negb bind].
  destruct (aggregate _ _) as [[sc label]|e]; reflexivity.
Qed.

Lemma scored_needs_models (self : EnsembleDetector) (fs : list Q) :
  abs_scores_of (collect_votes (models self) fs []) <> [] ->
  models self <> [].
Proof. intros H E. rewrite E in H. now apply H. Qed.

(** *** The decision as a whole *)

Lemma known_strategy (s : string) :
  dict_mem ENSEMBLE_STRATEGIES s = true <->
  s = "hard"%string \/ s = "soft"%string \/ s = "weighted"%string.
Proof.
  unfold dict_mem, ENSEMBLE_STRATEGIES. cbn [dict_lookup]. split.
  - destruct (String.eqb "hard" s) eqn:E1;
      [apply String.eqb_eq in E1; auto|].
    destruct (String.eqb "soft" s) eqn:E2;
      [apply String.eqb_eq in E2; auto|].
    destruct (String.eqb "weighted" s) eqn:E3;
      [apply String.eqb_eq in E3; auto|].
    discriminate.
  - intros [-> | [-> | ->]]; reflexivity.
Qed.

Lemma hard_voting_returns (votes : dict Vote) :
  exists sc label, _hard_voting votes = Ok (sc, label).
Proof.
  destruct (predictions_of votes) as [|p ps] eqn:E.
  - unfold _hard_voting. rewrite E. eauto.
  - rewrite hard_voting_ok by (rewrite E; discriminate). eauto.
Qed.

Lemma soft_voting_returns (self : EnsembleDetector) (votes : dict Vote) :
  exists sc label, _soft_voting self votes = Ok (sc, label).
Proof.
  destruct (abs_scores_of votes) as [|s ss] eqn:E.
  - unfold _soft_voting. rewrite E. eauto.
  - destruct (soft_voting_ok self votes) as (sc & H & _);
      [rewrite E; discriminate|]. rewrite H. eauto.
Qed.

Lemma weighted_voting_unscored (self : EnsembleDetector) (votes : dict Vote) :
  abs_scores_of votes = [] -> _weighted_voting self votes = Ok (0, 0%Z).
Proof.
  intros E. unfold _weighted_voting.
  rewrite weighted_sums_unscored by exact E. reflexivity.
Qed.

Lemma weighted_voting_returns (self : EnsembleDetector) (votes : dict Vote) :
  (abs_scores_of votes <> [] -> models self <> []) ->
  exists sc label, _weighted_voting self votes = Ok (sc, label).
Proof.
  intros Hm. destruct (abs_scores_of votes) as [|s ss] eqn:E.
  - rewrite weighted_voting_unscored by exact E. eauto.
  - destruct (weighted_voting_ok self votes) as (sc & H & _).
    + apply Hm. discriminate.
    + rewrite E. discriminate.
    + rewrite H. eauto.
Qed.

(** The combiner returns under each of the three strategies; under any
    other it fails on the unbound result, never on a division. *)
Lemma aggregate_cases (self : EnsembleDetector) (votes : dict Vote) :
  (abs_scores_of votes <> [] -> models self <> []) ->
  (dict_mem ENSEMBLE_STRATEGIES (strategy self) = true /\
   exists sc label, aggregate self votes = Ok (sc, label))
  \/
  (dict_mem ENSEMBLE_STRATEGIES (strategy self) = false /\
   exists msg, aggregate self votes = Raise (UnboundLocalError msg)).
Proof.
  intros Hm. unfold aggregate.
  destruct (dict_mem ENSEMBLE_STRATEGIES (strategy self)) eqn:Hs.
  - left. split; [reflexivity|]. apply known_strategy in Hs.
    destruct Hs as [-> | [-> | ->]]; cbn [String.eqb Ascii.eqb Bool.eqb].
    + apply hard_voting_returns.
    + apply soft_voting_returns.
    + now apply weighted_voting_returns.
  - right. split; [reflexivity|].
    unfold dict_mem, ENSEMBLE_STRATEGIES in Hs. cbn [dict_lookup] in Hs.
    rewrite !(String.eqb_sym (strategy self)).
    destruct (String.eqb "hard" (strategy self)); [discriminate|].
    destruct (String.eqb "soft" (strategy self)); [discriminate|].
    destruct (String.eqb "weighted" (strategy self)); [discriminate|].
    eauto.
Qed.

Lemma soft_spec_zero (scores : list Q) :
  maximum scores == 0 -> soft_score_spec scores == 0.
Proof.
  intros Hz. unfold soft_score_spec, mean.
  rewrite Qsum_all_zero; [unfold Qdiv; ring|].
  intros s _. now apply Qdiv_by_zero.
Qed.

Lemma weighted_spec_zero (self : EnsembleDetector) (votes : dict Vote) :
  maximum (abs_scores_of votes) == 0 -> weighted_score_spec self votes == 0.
Proof. intros Hz. unfold weighted_score_spec. now apply Qdiv_by_zero. Qed.

(** C4.  Under the strategy soft, when at least one model produced a score,
    the ensemble score is the mean of the models' [|score|], each divided by
    the largest [|score|] of the call, and the label is anomaly exactly when
    that score reaches the threshold.  (When every score is zero the largest
    is zero, the code divides by 1 instead, and the score is 0.)  For the
    scores -0.2, -0.8, -0.4 the normalized scores are
    0.25, 1, 0.5, the ensemble score is 7/12 = 0.5833..., and with the
    threshold 0.5 the label is anomaly. *)
Theorem soft_voting_is_normalized_mean :
  (forall (self : EnsembleDetector) (features fs : list Q),
      strategy self = "soft"%string ->
      length features = 3%nat ->
      scale self features = Ok fs ->
      let votes := collect_votes (models self) fs [] in
      abs_scores_of votes <> [] ->
      exists (sc : Q) (label : Z),
        predict self features = Ok (sc, label, votes) /\
        sc == soft_score_spec (abs_scores_of votes) /\
        (maximum (abs_scores_of votes) == 0 -> sc == 0) /\
        (label = 1%Z <-> threshold self <= sc) /\
        (label = 0%Z \/ label = 1%Z))
  /\
  (exists (sc : Q) (votes : dict Vote) (normalized : list Q),
      predict soft_example sample_features = Ok (sc, 1%Z, votes) /\
      map vote_score (values votes) = [Some (-0.2); Some (-0.8); Some (-0.4)] /\
      normalize (Qabs (-0.2)) [Qabs (-0.8); Qabs (-0.4)] = Ok normalized /\
      Forall2 Qeq normalized [0.25; 1; 0.5] /\
      sc == 7 # 12 /\
      threshold soft_example == 0.5).
Proof.
  split.
  - intros self features fs Hs Hlen Hscale votes Hne.
    rewrite (predict_unfold self features fs Hlen Hscale). fold votes.
    unfold aggregate. rewrite Hs. cbn [String.eqb Ascii.eqb Bool.eqb].
    destruct (soft_voting_ok self votes Hne) as (sc & Hrun & Hsc).
    rewrite Hrun. eexists _, _. split; [reflexivity|]. split; [exact Hsc|].
    split; [intros Hz; rewrite Hsc; now apply soft_spec_zero|].
    apply label_threshold.
  - eexists _, _, _. split; [vm_compute; reflexivity|].
    split; [reflexivity|]. split; [vm_compute; reflexivity|].
    split; [repeat constructor|]. split; reflexivity.
Qed.

(** C5.  Under the strategy hard, when at least one model produced a
    prediction, the ensemble score is the number of anomaly votes divided by
    the number of voting models, and the label is anomaly exactly when that
    score is at least 2/3.  Three models voting anomaly, anomaly, normal give
    the score 2/3 and the label anomaly; anomaly, normal, normal give 1/3 and
    the label normal. *)
Theorem hard_voting_is_vote_ratio :
  (forall (self : EnsembleDetector) (features fs : list Q),
      strategy self = "hard"%string ->
      length features = 3%nat ->
      scale self features = Ok fs ->
      let votes := collect_votes (models self) fs [] in
      voters votes <> 0%nat ->
      exists (sc : Q) (label : Z),
        predict self features = Ok (sc, label, votes) /\
        sc == inject_Z (Z.of_nat (anomaly_votes votes))
              / inject_Z (Z.of_nat (voters votes)) /\
        (label = 1%Z <-> 2 # 3 <= sc) /\
        (label = 0%Z \/ label = 1%Z))
  /\
  (exists (sc : Q) (votes : dict Vote),
      predict (trio "hard" 0.5 (-1) (-1) 1 (-0.7) (-0.6) (-0.1)) sample_features
      = Ok (sc, 1%Z, votes) /\
      map vote_prediction (values votes) = [Some 1%Z; Some 1%Z; Some 0%Z] /\
      sc == 2 # 3)
  /\
  (exists (sc : Q) (votes : dict Vote),
      predict (trio "hard" 0.5 (-1) 1 1 (-0.7) (-0.2) (-0.1)) sample_features
      = Ok (sc, 0%Z, votes) /\
      map vote_prediction (values votes) = [Some 1%Z; Some 0%Z; Some 0%Z] /\
      sc == 1 # 3).
Proof.
  split; [|split].
  - intros self features fs Hs Hlen Hscale votes Hne.
    rewrite (predict_unfold self features fs Hlen Hscale). fold votes.
    unfold aggregate. rewrite Hs. cbn [String.eqb Ascii.eqb Bool.eqb].
    unfold voters in *.
    assert (Hpreds : predictions_of votes <> []).
    { intros E. apply Hne. now rewrite E. }
    rewrite (hard_voting_ok votes Hpreds). cbv zeta.
    assert (Hbin : Zsum (predictions_of votes)
                   = Z.of_nat (anomaly_votes votes)).
    { apply Zsum_binary, predictions_binary.
      apply collect_votes_binary. constructor. }
    rewrite Hbin. eexists _, _. split; [reflexivity|].
    split; [reflexivity|].
    split; [|destruct (Qle_bool _ _); auto].
    rewrite <- two_thirds by lia.
    destruct (Qle_bool _ _) eqn:E.
    + apply Qle_bool_iff in E. tauto.
    + split; [discriminate|]. intros H. apply Qle_bool_iff in H. congruence.
  - eexists _, _. split; [vm_compute; reflexivity|]. split; reflexivity.
  - eexists _, _. split; [vm_compute; reflexivity|]. split; reflexivity.
Qed.

(** C6.  Under the strategy weighted, when at least one model produced a
    score, the ensemble score is the weighted mean of the models' [|score|]
    (a model without an entry in the static table weighs [1/num_models])
    divided by the largest [|score|] of the call, and the label is anomaly
    exactly when that score reaches the threshold.  (When every score is
    zero the largest is zero, the code does not divide by it, and the score
    is 0.) *)
Theorem weighted_voting_is_weighted_mean :
  forall (self : EnsembleDetector) (features fs : list Q),
    strategy self = "weighted"%string ->
    length features = 3%nat ->
    scale self features = Ok fs ->
    let votes := collect_votes (models self) fs [] in
    abs_scores_of votes <> [] ->
    exists (sc : Q) (label : Z),
      predict self features = Ok (sc, label, votes) /\
      sc == weighted_score_spec self votes /\
      (maximum (abs_scores_of votes) == 0 -> sc == 0) /\
      (label = 1%Z <-> threshold self <= sc) /\
      (label = 0%Z \/ label = 1%Z).
Proof.
  intros self features fs Hs Hlen Hscale votes Hne.
  rewrite (predict_unfold self features fs Hlen Hscale). fold votes.
  unfold aggregate. rewrite Hs. cbn [String.eqb Ascii.eqb Bool.eqb].
  destruct (weighted_voting_ok self votes) as (sc & Hrun & Hsc);
    [now apply (scored_needs_models self fs) | exact Hne |].
  rewrite Hrun. eexists _, _. split; [reflexivity|]. split; [exact Hsc|].
  split; [intros Hz; rewrite Hsc; now apply weighted_spec_zero|].
  apply label_threshold.
Qed.

Lemma scored_predictions_length (votes : dict Vote) :
  forallb is_scored votes = true ->
  length (predictions_of votes) = length votes.
Proof.
  induction votes as [|[name v] votes IH]; [reflexivity|].
  cbn [forallb]. rewrite andb_true_iff. intros [Hv Hrest].
  rewrite predictions_cons, length_app, IH by exact Hrest.
  destruct v; [reflexivity | discriminate].
Qed.

Lemma recorded_remaining_scored (fs : list Q) (items : dict Estimator) :
  forallb is_scored (map (recorded fs) (filter (answers fs) items)) = true.
Proof.
  rewrite <- filter_recorded. apply forallb_forall.
  intros x Hx. now apply filter_In in Hx.
Qed.

(** C7.  A model whose [predict] or score call raises is left out of the
    aggregation of that call, is recorded in the vote map with an error
    marker, and does not abort the decision: [predict] returns, its score
    and label are those the combiner computes from the votes of the
    remaining models alone, and the numbers of votes and of scores are the
    number of remaining models. *)
Theorem failing_model_is_isolated :
  forall (self : EnsembleDetector) (features fs : list Q),
    dict_mem ENSEMBLE_STRATEGIES (strategy self) = true ->
    distinct (keys (models self)) = true ->
    length features = 3%nat ->
    scale self features = Ok fs ->
    let votes := collect_votes (models self) fs [] in
    let remaining := filter (answers fs) (models self) in
    (exists (sc : Q) (label : Z),
        predict self features = Ok (sc, label, votes) /\
        aggregate self (collect_votes remaining fs []) = Ok (sc, label)) /\
    keys votes = keys (models self) /\
    (forall (name : string) (model : Estimator) (e : exn),
        In (name, model) (models self) ->
        ask model fs = Raise e ->
        dict_lookup votes name = Some (Failed (str e))) /\
    (forall (name : string) (model : Estimator) (v : Vote),
        In (name, model) (models self) ->
        ask model fs = Ok v ->
        dict_lookup votes name = Some v) /\
    voters votes = length remaining /\
    length (abs_scores_of votes) = length remaining.
Proof.
  intros self features fs Hs Hd Hlen Hscale votes remaining.
  apply distinct_NoDup in Hd.
  assert (Hvotes : votes = map (recorded fs) (models self)).
  { subst votes. now rewrite collect_votes_distinct. }
  assert (Hrem : collect_votes remaining fs []
                 = filter is_scored votes).
  { rewrite collect_votes_distinct.
    - rewrite Hvotes, filter_recorded. reflexivity.
    - cbn [keys map app]. now apply NoDup_keys_filter. }
  assert (Hvoters : voters votes = length remaining).
  { unfold voters. rewrite <- predictions_filter, Hvotes, filter_recorded.
    rewrite scored_predictions_length by apply recorded_remaining_scored.
    now rewrite length_map. }
  split; [|split; [|split; [|split; [|split]]]].
  - rewrite (predict_unfold self features fs Hlen Hscale). fold votes.
    rewrite Hrem, aggregate_filter.
    destruct (aggregate_cases self votes) as [(_ & sc & label & H) | (H & _)].
    + apply scored_needs_models.
    + rewrite H. eauto.
    + congruence.
  - rewrite Hvotes. apply keys_recorded.
  - intros name model e Hin Hask. rewrite Hvotes.
    rewrite (lookup_recorded fs _ name model Hd Hin).
    unfold vote_of. now rewrite Hask.
  - intros name model v Hin Hask. rewrite Hvotes.
    rewrite (lookup_recorded fs _ name model Hd Hin).
    unfold vote_of. now rewrite Hask.
  - exact Hvoters.
  - rewrite <- predictions_length_scores. exact Hvoters.
Qed.

(** C9.  No call of [predict] divides by zero, under any strategy, and a
    model without a score is left out rather than counted as zero: the
    combiner gives the same result with the score-less entries removed;
    without any usable vote or score each strategy returns the score 0 and
    the label normal; soft voting divides by 1 when the largest [|score|]
    is zero; weighted voting returns (0, normal) when the total weight is
    zero. *)
Theorem combiner_never_divides_by_zero :
  (forall (self : EnsembleDetector) (fs : list Q),
      is_zero_division
        (aggregate self (collect_votes (models self) fs [])) = false)
  /\
  (forall (self : EnsembleDetector) (features : list Q),
      is_zero_division (scale self features) = false ->
      is_zero_division (predict self features) = false)
  /\
  (forall (self : EnsembleDetector) (votes : dict Vote),
      aggregate self (filter is_scored votes) = aggregate self votes)
  /\
  (forall (self : EnsembleDetector) (votes : dict Vote),
      abs_scores_of votes = [] ->
      predictions_of votes = [] /\
      _hard_voting votes = Ok (0, 0%Z) /\
      _soft_voting self votes = Ok (0, 0%Z) /\
      _weighted_voting self votes = Ok (0, 0%Z))
  /\
  (forall (self : EnsembleDetector) (votes : dict Vote) (first : Q)
          (rest : list Q),
      abs_scores_of votes = first :: rest ->
      max_from first rest == 0 ->
      normalize first rest = Ok (map (fun s => s / 1) (first :: rest)) /\
      exists sc : Q, _soft_voting self votes = Ok (sc, if Qle_bool (threshold self) sc then 1%Z else 0%Z) /\ sc == 0)
  /\
  (forall (self : EnsembleDetector) (votes : dict Vote) (ws w : Q),
      weighted_sums self votes 0 0 = Ok (ws, w) ->
      w == 0 ->
      _weighted_voting self votes = Ok (0, 0%Z))
  /\
  (exists (sc zeroed : Q) (label : Z) (votes : dict Vote),
      predict (with_broken "soft") sample_features = Ok (sc, label, votes) /\
      dict_lookup votes "elliptic_envelope_model.pkl"
      = Some (Failed "model is broken") /\
      sc == 3 # 4 /\
      _soft_voting (with_broken "soft") (map counted_as_zero votes)
      = Ok (zeroed, 1%Z) /\
      zeroed == 1 # 2).
Proof.
  assert (Hagg : forall self fs,
             is_zero_division
               (aggregate self (collect_votes (models self) fs [])) = false).
  { intros self fs.
    destruct (aggregate_cases self (collect_votes (models self) fs []))
      as [(_ & sc & label & H) | (_ & msg & H)];
      [apply scored_needs_models | |]; rewrite H; reflexivity. }
  split; [exact Hagg|]. split; [|split; [|split; [|split; [|split]]]].
  - intros self features Hscale. unfold predict.
    destruct (length features =? 3)%nat; cbn [negb]; [|reflexivity].
    destruct (scale self features) as [fs|e]; cbn [bind]; [|exact Hscale].
    specialize (Hagg self fs).
    destruct (aggregate _ _) as [[sc label]|e]; [reflexivity | exact Hagg].
  - intros self votes. apply aggregate_filter.
  - intros self votes E.
    assert (Hp : predictions_of votes = []).
    { apply length_zero_iff_nil. rewrite predictions_length_scores, E.
      reflexivity. }
    split; [exact Hp|]. split; [|split].
    + unfold _hard_voting. now rewrite Hp.
    + unfold _soft_voting. now rewrite E.
    + now apply weighted_voting_unscored.
  - intros self votes first rest E Hmax.
    destruct (normalize_ok first rest) as [_ Hn]. cbv zeta in Hn.
    apply Qeq_bool_iff in Hmax. rewrite Hmax in Hn.
    split; [exact Hn|].
    unfold _soft_voting. rewrite E, Hn. cbn [bind].
    rewrite np_mean_ok by discriminate. cbn [bind].
    eexists. split; [reflexivity|].
    pose proof (abs_scores_nonneg votes) as Hpos. rewrite E in Hpos.
    apply Qeq_bool_iff in Hmax.
    unfold mean. rewrite Qsum_all_zero; [unfold Qdiv; ring|].
    intros s Hs. rewrite (max_zero_all_zero first rest Hpos Hmax s Hs).
    unfold Qdiv. ring.
  - intros self votes ws w Hrun Hw. unfold _weighted_voting.
    rewrite Hrun. cbn [bind]. apply Qeq_bool_iff in Hw. now rewrite Hw.
  - eexists _, _, _, _. split; [vm_compute; reflexivity|].
    split; [reflexivity|]. split; [reflexivity|].
    split; [vm_compute; reflexivity | reflexivity].
Qed.

(** *** What the constructor guarantees *)

Lemma dict_set_keys {V : Type} (d : dict V) (k : string) (v : V) (x : string) :
  In x (keys (dict_set d k v)) -> x = k \/ In x (keys d).
Proof.
  induction d as [|[k' v'] d IH]; cbn [dict_set keys map fst].
  - intros [H | []]. now left.
  - destruct (String.eqb k' k) eqn:E; cbn [keys map fst].
    + apply String.eqb_eq in E. subst k'. intros [H | H]; [now left|].
      right. now right.
    + intros [H | H]; [right; now left|].
      destruct (IH H) as [Hk | Hd]; [now left | right; now right].
Qed.

Lemma dict_set_NoDup {V : Type} (d : dict V) (k : string) (v : V) :
  NoDup (keys d) -> NoDup (keys (dict_set d k v)).
Proof.
  induction d as [|[k' v'] d IH]; intros Hnd; cbn [dict_set keys map fst].
  - constructor; [intros [] | constructor].
  - cbn [keys map fst] in Hnd. inversion Hnd as [|? ? Hk Hks]; subst.
    destruct (String.eqb k' k) eqn:E; cbn [keys map fst].
    + apply String.eqb_eq in E. subst k'. constructor; assumption.
    + constructor; [|now apply IH].
      intros Hin. destruct (dict_set_keys d k v k' Hin) as [Heq | Hd].
      * apply String.eqb_neq in E. congruence.
      * contradiction.
Qed.

(** A detector that [__init__] returned has one of the three strategies,
    at least one model, and models under distinct names. *)
Lemma constructed_detector (disk : Disk) (dir : string)
    (scaler_path : option string) (strat : string) (thr : Q)
    (self : EnsembleDetector) :
  __init__ disk dir scaler_path strat thr = Ok self ->
  dict_mem ENSEMBLE_STRATEGIES (strategy self) = true /\
  strategy self = lower strat /\
  threshold self = thr /\
  models self <> [] /\
  distinct (keys (models self)) = true.
Proof.
  unfold __init__.
  destruct (dict_mem ENSEMBLE_STRATEGIES (lower strat)) eqn:Hs;
    cbn [negb]; [|discriminate].
  destruct (_load_scaler disk dir scaler_path) as [sc|e]; cbn [bind];
    [|discriminate].
  destruct (_load_models disk dir) as [ms|e] eqn:Hms; cbn [bind];
    [|discriminate].
  intros H. injection H as <-. cbn.
  split; [exact Hs|]. split; [reflexivity|]. split; [reflexivity|].
  unfold _load_models in Hms.
  destruct (path_exists disk dir); cbn [negb] in Hms; [|discriminate].
  destruct (filter _ (listdir disk dir)) as [|f files]; [discriminate|].
  set (step := fun (acc : dict Estimator) (model_file : string) =>
                 match load_model disk (os_path_join dir model_file) with
                 | Ok model => dict_set acc model_file model
                 | Raise _ => acc
                 end) in Hms.
  assert (Hnd : forall l acc, NoDup (keys acc) ->
                              NoDup (keys (fold_left step l acc))).
  { induction l as [|x l IH]; intros acc Hacc; [exact Hacc|].
    cbn [fold_left]. apply IH. unfold step.
    destruct (load_model disk _); [now apply dict_set_NoDup | exact Hacc]. }
  destruct (fold_left step (f :: files) []) as [|m ms'] eqn:Hfold;
    [discriminate|].
  injection Hms as <-. split; [discriminate|].
  apply distinct_NoDup. rewrite <- Hfold. apply Hnd. constructor.
Qed.

(** *** Configuration errors *)

Lemma dict_mem_keys {V : Type} (d : dict V) (k : string) :
  dict_mem d k = true <-> In k (keys d).
Proof.
  unfold dict_mem. induction d as [|[k' v] d IH]; cbn [dict_lookup keys map fst].
  - split; [discriminate | contradiction].
  - destruct (String.eqb k' k) eqn:E.
    + apply String.eqb_eq in E. split; [now left | reflexivity].
    + apply String.eqb_neq in E. rewrite IH. unfold keys. split.
      * intros H. now right.
      * intros [H | H]; [contradiction | exact H].
Qed.

(** C8, as the code has it.  Configuration errors fail fast: constructing
    with a strategy whose lower-cased form is not one of hard, soft, weighted
    raises an error, whatever the disk holds; calling [predict] with a
    feature vector whose length is not 3 raises an error; and
    [set_threshold] raises an error for a threshold outside [0, 1], while it
    stores one inside. *)
Theorem configuration_errors_fail_fast :
  (forall (disk : Disk) (dir : string) (scaler_path : option string)
          (strat : string) (thr : Q),
      ~ In (lower strat) ["hard"; "soft"; "weighted"]%string ->
      __init__ disk dir scaler_path strat thr
      = Raise (ValueError
                 "Strategy must be one of: ['hard', 'soft', 'weighted']"))
  /\
  (forall (self : EnsembleDetector) (features : list Q),
      length features <> 3%nat ->
      predict self features
      = Raise (ValueError ("Expected 3 features, got "
                           ++ str_of_nat (length features))))
  /\
  (forall (self : EnsembleDetector) (thr : Q),
      ~ (0 <= thr /\ thr <= 1) ->
      set_threshold self thr
      = Raise (ValueError "Threshold must be between 0 and 1"))
  /\
  (forall (self : EnsembleDetector) (thr : Q),
      0 <= thr /\ thr <= 1 ->
      exists self' : EnsembleDetector,
        set_threshold self thr = Ok self' /\
        threshold self' = thr /\
        strategy self' = strategy self /\
        models self' = models self).
Proof.
  split; [|split; [|split]].
  - intros disk dir scaler_path strat thr Hs. unfold __init__.
    destruct (dict_mem ENSEMBLE_STRATEGIES (lower strat)) eqn:E;
      [|reflexivity].
    apply dict_mem_keys in E. contradiction.
  - intros self features Hlen. unfold predict.
    apply Nat.eqb_neq in Hlen. now rewrite Hlen.
  - intros self thr Hthr. unfold set_threshold.
    destruct (Qle_bool 0 thr && Qle_bool thr 1) eqn:E; [|reflexivity].
    apply andb_true_iff in E. rewrite !Qle_bool_iff in E. contradiction.
  - intros self thr [H0 H1]. unfold set_threshold.
    apply Qle_bool_iff in H0, H1. rewrite H0, H1. cbn [andb negb].
    eexists. repeat split.
Qed.

(** *** A lower bound on the soft score *)

Lemma soft_spec_lower_bound (scores : list Q) :
  Forall (fun s => 0 <= s) scores ->
  (exists s, In s scores /\ ~ s == 0) ->
  0 < maximum scores /\
  In (maximum scores) scores /\
  1 / inject_Z (Z.of_nat (length scores)) <= soft_score_spec scores.
Proof.
  intros Hpos (s & Hs & Hnz).
  destruct scores as [|first rest]; [contradiction|].
  rewrite maximum_cons. set (m := max_from first rest).
  assert (Hm : 0 < m).
  { pose proof (max_from_ge rest first) as Hle.
    rewrite Forall_forall in Hpos, Hle.
    specialize (Hpos s Hs). specialize (Hle s Hs). fold m in Hle.
    assert (0 < s) by (apply Qnot_le_lt; intros H; apply Hnz; lra). lra. }
  assert (Hin : In m (first :: rest)) by apply max_from_in.
  split; [exact Hm|]. split; [exact Hin|].
  unfold soft_score_spec, mean. rewrite maximum_cons. fold m.
  rewrite length_map.
  set (n := inject_Z (Z.of_nat (length (first :: rest)))).
  assert (Hn : 0 < n) by (apply length_positive_Q; discriminate).
  assert (Hone : 1 <= Qsum (map (fun x => x / m) (first :: rest))).
  { assert (E : m / m == 1) by (field; lra). rewrite <- E.
    apply Qsum_ge_member.
    - apply Forall_map. eapply Forall_impl; [|exact Hpos].
      intros x Hx. cbv beta in *.
      apply Qle_shift_div_l; [exact Hm | rewrite Qmult_0_l; exact Hx].
    - apply (in_map (fun x => x / m)) in Hin. exact Hin. }
  unfold Qdiv. apply Qmult_le_compat_r; [exact Hone|].
  apply Qlt_le_weak, Qinv_lt_0_compat. exact Hn.
Qed.

(** C10, as the code has it.  Soft voting divides by the largest [|score|]
    of the call, so when some model's score is not zero one normalized
    score is exactly 1 and the ensemble score over [n] scoring models is at
    least [1/n]; when exactly one model scores, and its score is not zero,
    the ensemble score is exactly 1 and the label is anomaly for every
    threshold up to 1. *)
Theorem soft_score_lower_bound :
  forall (self : EnsembleDetector) (features fs : list Q),
    strategy self = "soft"%string ->
    length features = 3%nat ->
    scale self features = Ok fs ->
    let votes := collect_votes (models self) fs [] in
    let scores := abs_scores_of votes in
    (exists s, In s scores /\ ~ s == 0) ->
    exists (sc : Q) (label : Z),
      predict self features = Ok (sc, label, votes) /\
      (exists s, In s scores /\ s / maximum scores == 1) /\
      1 / inject_Z (Z.of_nat (length scores)) <= sc /\
      (length scores = 1%nat ->
       sc == 1 /\ (threshold self <= 1 -> label = 1%Z)).
Proof.
  intros self features fs Hs Hlen Hscale votes scores Hnz.
  assert (Hne : scores <> []).
  { destruct Hnz as (s & Hin & _). intros E. rewrite E in Hin. contradiction. }
  rewrite (predict_unfold self features fs Hlen Hscale). fold votes.
  unfold aggregate. rewrite Hs. cbn [String.eqb Ascii.eqb Bool.eqb].
  destruct (soft_voting_ok self votes Hne) as (sc & Hrun & Hsc).
  fold scores in Hsc. rewrite Hrun.
  destruct (soft_spec_lower_bound scores (abs_scores_nonneg votes) Hnz)
    as (Hm & Hin & Hbound).
  eexists _, _. split; [reflexivity|]. split; [|split].
  - exists (maximum scores). split; [exact Hin | field; lra].
  - rewrite Hsc. exact Hbound.
  - intros H1.
    assert (Hone : sc == 1).
    { apply Qle_antisym; [|rewrite H1 in Hbound; rewrite Hsc; exact Hbound].
      rewrite Hsc. destruct scores as [|x [|y rest]]; try discriminate.
      unfold soft_score_spec, mean. cbn [map length maximum max_default max_from fold_left].
      cbn in Hm. unfold Qsum. cbn [fold_left].
      assert (E : (0 + x / x) / inject_Z (Z.of_nat 1) == 1) by (field; lra).
      rewrite E. apply Qle_refl. }
    split; [exact Hone|]. intros Hthr.
    assert (Hle : Qle_bool (threshold self) sc = true).
    { apply Qle_bool_iff. rewrite Hone. exact Hthr. }
    now rewrite Hle.
Qed.

End EnsembleVoting.

(** *** The combiner on concrete detectors *)

Section EnsembleExamples.
Local Open Scope Q_scope.

(** The soft-voting example of the specification. *)
Lemma soft_voting_witness :
  exists (sc : Q) (label : Z),
    predict soft_example sample_features
    = Ok (sc, label, collect_votes (models soft_example) sample_features []) /\
    sc == soft_score_spec [Qabs (-0.2); Qabs (-0.8); Qabs (-0.4)] /\
    sc == 7 # 12 /\
    label = 1%Z.
Proof.
  destruct (proj1 soft_voting_is_normalized_mean
              soft_example sample_features sample_features
              eq_refl eq_refl eq_refl)
    as (sc & label & Hrun & Hsc & _ & Hlabel & _);
    [vm_compute; discriminate|].
  exists sc, label. split; [exact Hrun|]. split; [exact Hsc|].
  assert (E : sc == 7 # 12) by (rewrite Hsc; vm_compute; reflexivity).
  split; [exact E|]. apply Hlabel. rewrite E. vm_compute. discriminate.
Defined.

(** Two anomaly votes out of three. *)
Lemma hard_voting_witness :
  exists (sc : Q) (label : Z),
    predict (trio "hard" 0.5 (-1) (-1) 1 (-0.7) (-0.6) (-0.1)) sample_features
    = Ok (sc, label,
          collect_votes
            (models (trio "hard" 0.5 (-1) (-1) 1 (-0.7) (-0.6) (-0.1)))
            sample_features []) /\
    sc == inject_Z 2 / inject_Z 3 /\
    (label = 1%Z <-> 2 # 3 <= sc) /\
    (label = 0%Z \/ label = 1%Z).
Proof.
  apply (proj1 hard_voting_is_vote_ratio
           (trio "hard" 0.5 (-1) (-1) 1 (-0.7) (-0.6) (-0.1))
           sample_features sample_features);
    [reflexivity | reflexivity | reflexivity | vm_compute; discriminate].
Defined.

(** Weights 0.40 and 0.35 from the table and the default 1/3 for a model
    the table does not know: the score is 37/65 = 0.569..., an anomaly at
    the threshold 0.5. *)
Lemma weighted_voting_witness :
  exists (sc : Q) (label : Z),
    predict (trio "weighted" 0.5 1 (-1) 1 (-0.2) (-0.8) (-0.4)) sample_features
    = Ok (sc, label,
          collect_votes
            (models (trio "weighted" 0.5 1 (-1) 1 (-0.2) (-0.8) (-0.4)))
            sample_features []) /\
    sc == 37 # 65 /\
    label = 1%Z.
Proof.
  destruct (weighted_voting_is_weighted_mean
              (trio "weighted" 0.5 1 (-1) 1 (-0.2) (-0.8) (-0.4))
              sample_features sample_features eq_refl eq_refl eq_refl)
    as (sc & label & Hrun & Hsc & _ & Hlabel & _);
    [vm_compute; discriminate|].
  exists sc, label. split; [exact Hrun|].
  assert (E : sc == 37 # 65) by (rewrite Hsc; vm_compute; reflexivity).
  split; [exact E|]. apply Hlabel. rewrite E. vm_compute. discriminate.
Defined.

(** The second of three models raises: it is recorded with its message and
    the other two decide. *)
Lemma failing_model_witness :
  (exists (sc : Q) (label : Z),
      predict (with_broken "hard") sample_features
      = Ok (sc, label,
            collect_votes (models (with_broken "hard")) sample_features [])) /\
  dict_lookup (collect_votes (models (with_broken "hard")) sample_features [])
    "elliptic_envelope_model.pkl"
  = Some (Failed "model is broken") /\
  voters (collect_votes (models (with_broken "hard")) sample_features [])
  = 2%nat.
Proof.
  destruct (failing_model_is_isolated (with_broken "hard")
              sample_features sample_features
              eq_refl eq_refl eq_refl eq_refl)
    as ((sc & label & Hrun & _) & _ & Hfailed & _ & Hvoters & _).
  split; [exists sc, label; exact Hrun|]. split; [|exact Hvoters].
  apply (Hfailed "elliptic_envelope_model.pkl"%string broken
           (Exception "model is broken")); [|reflexivity].
  right. left. reflexivity.
Defined.

(** An unknown strategy, a vector of two features and a threshold of 1.5
    handed to [set_threshold] are all refused. *)
Lemma configuration_errors_witness :
  __init__ one_model_disk "models/" None "median" 0.5
  = Raise (ValueError "Strategy must be one of: ['hard', 'soft', 'weighted']")
  /\
  predict soft_example [45.2; 62.1]
  = Raise (ValueError "Expected 3 features, got 2")
  /\
  set_threshold soft_example 1.5
  = Raise (ValueError "Threshold must be between 0 and 1").
Proof.
  destruct configuration_errors_fail_fast as (Hinit & Hpredict & Hset & _).
  split; [|split].
  - apply Hinit. cbn. intros [H | [H | [H | []]]]; discriminate.
  - apply (Hpredict soft_example [45.2; 62.1]). cbn. discriminate.
  - apply Hset. intros [_ H]. revert H. vm_compute. intros H. now apply H.
Defined.

(** The constructor lower-cases the strategy and stores the threshold as it
    comes: ["HARD"] with the threshold 1.5 builds a detector, and that
    detector predicts. *)
Lemma constructor_accepts_unchecked_arguments :
  exists (self : EnsembleDetector) (sc : Q) (label : Z) (votes : dict Vote),
    ~ In "HARD"%string ["hard"; "soft"; "weighted"]%string /\
    ~ (0 <= 1.5 /\ 1.5 <= 1) /\
    __init__ one_model_disk "models/" None "HARD" 1.5 = Ok self /\
    strategy self = "hard"%string /\
    threshold self = 1.5 /\
    predict self sample_features = Ok (sc, label, votes).
Proof.
  eexists _, _, _, _.
  split; [cbn; intros [H | [H | [H | []]]]; discriminate|].
  split; [intros [_ H]; revert H; vm_compute; intros H; now apply H|].
  split; [vm_compute; reflexivity|].
  split; [reflexivity|]. split; [reflexivity|]. vm_compute. reflexivity.
Qed.

(** A single model with a non-zero score: the soft score is exactly 1. *)
Lemma soft_score_lower_bound_witness :
  exists (sc : Q) (label : Z),
    predict (solo 0.9 (-0.3)) sample_features
    = Ok (sc, label,
          collect_votes (models (solo 0.9 (-0.3))) sample_features []) /\
    sc == 1 /\
    label = 1%Z.
Proof.
  destruct (soft_score_lower_bound (solo 0.9 (-0.3))
              sample_features sample_features eq_refl eq_refl eq_refl)
    as (sc & label & Hrun & _ & _ & Hone).
  - exists (Qabs (-0.3)). split; [now left | vm_compute; discriminate].
  - destruct (Hone eq_refl) as [Hsc Hlabel].
    exists sc, label. split; [exact Hrun|]. split; [exact Hsc|].
    apply Hlabel. vm_compute. discriminate.
Defined.

(** A single model whose score is zero: one model scored, and the soft
    score is 0, below [1/1]. *)
Lemma soft_score_zero_below_bound :
  exists (sc : Q) (label : Z) (votes : dict Vote),
    predict (solo 0.5 0) sample_features = Ok (sc, label, votes) /\
    length (abs_scores_of votes) = 1%nat /\
    sc == 0 /\
    sc < 1 / inject_Z (Z.of_nat (length (abs_scores_of votes))) /\
    label = 0%Z.
Proof.
  eexists _, _, _. split; [vm_compute; reflexivity|].
  repeat split.
Qed.

End EnsembleExamples.

(* ------------------------------------------------------------------ *)
(** * Part III: further properties of the code                         *)
(* ------------------------------------------------------------------ *)

(** ** The loop: buffers, alerts, written points and restarts *)

Section PipelineFurther.
Context {SK : Sklearn}.

Lemma tail_app_one {A : Type} (n : nat) (l : list A) (x : A) :
  (0 < n)%nat ->
  tail n (l ++ [x]) = skipn (length l + 1 - n) l ++ [x].
Proof.
  intros Hn. unfold tail. rewrite skipn_app, length_app. cbn [length].
  replace (length l + 1 - n - length l)%nat with 0%nat by lia.
  reflexivity.
Qed.

Lemma skipn_one_tl {A : Type} (l : list A) : skipn 1 l = tl l.
Proof. destruct l; reflexivity. Qed.

Lemma iteration_report (s : Loop) (e : Env) (x : Sample) :
  live e = Some x ->
  exists r : Report,
    snd (iteration s e) = Some r /\
    model_prediction r = raw_prediction s x /\
    surge_condition r = surge (cpu_usage x) (memory_usage x) (network_load x) /\
    ai_status r = snd (gate (anomaly_counter s) (raw_prediction s x)
                         (surge (cpu_usage x) (memory_usage x) (network_load x))).
Proof.
  intros Hx. rewrite (iteration_live s e x Hx). cbv zeta.
  eexists. split; [reflexivity|]. repeat split.
Qed.

Lemma iteration_idle (s : Loop) (e : Env) :
  live e = None -> iteration s e = (s, None).
Proof. intros Hx. unfold iteration. now rewrite Hx. Qed.

Lemma iteration_memory_normal (s : Loop) (e : Env) (x : Sample) :
  live e = Some x ->
  raw_prediction s x = 0 ->
  load_core_memory (files (fst (iteration s e)))
  = tail 2000 (load_core_memory (files s) ++ [x]).
Proof.
  intros Hx Hp. rewrite iteration_memory, Hx.
  destruct (iteration_report s e x Hx) as (r & Hr & Hm & _).
  rewrite Hr, Hm, Hp. reflexivity.
Qed.

Lemma iteration_archive (s : Loop) (e : Env) (x : Sample) :
  live e = Some x ->
  archive_rows (files (fst (iteration s e))) =
  if raw_prediction s x =? 0 then archive_rows (files s)
  else tail 1000 (archive_rows (files s) ++ [archived x (utcnow e)]).
Proof.
  intros Hx. destruct (iteration_files s e x Hx) as [_ Ha]. cbv zeta in Ha.
  unfold archive_rows at 1. rewrite Ha.
  destruct (raw_prediction_binary s x) as [H0 | H1].
  - rewrite route_normal by assumption. rewrite H0. reflexivity.
  - rewrite route_anomaly by lia. rewrite H1. cbn.
    unfold archive_rows. destruct (DETECTED_ANOMALIES (files s)); reflexivity.
Qed.

(** The training buffer is a FIFO window of 2000 rows: a sample labelled
    normal is appended, and once the CSV holds 2000 rows the oldest row
    leaves for each one that enters.  A CSV that is longer than 2000 rows
    when the loop starts is cut on the first append; no run makes the
    buffer longer than the larger of 2000 and its initial length. *)
Theorem training_buffer_window :
  (forall (s : Loop) (e : Env) (x : Sample),
      live e = Some x ->
      raw_prediction s x = 0 ->
      let rows := load_core_memory (files s) in
      let rows' := load_core_memory (files (fst (iteration s e))) in
      length rows' = Nat.min 2000 (length rows + 1) /\
      ((length rows < 2000)%nat -> rows' = rows ++ [x]) /\
      (length rows = 2000%nat -> rows' = tl rows ++ [x]) /\
      ((2000 <= length rows)%nat ->
       rows' = skipn (length rows - 1999) rows ++ [x]))
  /\
  (forall (s : Loop) (envs : list Env),
      (length (load_core_memory (files (fst (run_pipeline s envs))))
       <= Nat.max 2000 (length (load_core_memory (files s))))%nat).
Proof.
  split.
  - intros s e x Hx Hp rows rows'. subst rows'.
    rewrite (iteration_memory_normal s e x Hx Hp). fold rows.
    split; [rewrite tail_length, length_app; cbn [length]; lia|].
    rewrite tail_app_one by lia.
    split; [|split]; intros Hlen.
    + replace (length rows + 1 - 2000)%nat with 0%nat by lia. reflexivity.
    + rewrite Hlen. change (2000 + 1 - 2000)%nat with 1%nat.
      now rewrite skipn_one_tl.
    + f_equal. f_equal. lia.
  - intros s envs. rewrite run_pipeline_memory.
    destruct (learned envs _) as [|y new]; [lia|].
    rewrite tail_length. lia.
Qed.

(** The anomaly archive is a FIFO window of 1000 rows: a sample labelled
    anomaly is appended with its timestamp (to a new file when there is
    none), and once the file holds 1000 rows the oldest row leaves. *)
Theorem anomaly_archive_window :
  forall (s : Loop) (e : Env) (x : Sample),
    live e = Some x ->
    raw_prediction s x = 1 ->
    let rows := archive_rows (files s) in
    let rows' := archive_rows (files (fst (iteration s e))) in
    DETECTED_ANOMALIES (files (fst (iteration s e))) = Some rows' /\
    length rows' = Nat.min 1000 (length rows + 1) /\
    ((length rows < 1000)%nat -> rows' = rows ++ [archived x (utcnow e)]) /\
    (length rows = 1000%nat -> rows' = tl rows ++ [archived x (utcnow e)]).
Proof.
  intros s e x Hx Hp rows rows'. subst rows'.
  assert (Hfile : DETECTED_ANOMALIES (files (fst (iteration s e)))
                  = Some (archive_rows (files (fst (iteration s e))))).
  { destruct (iteration_files s e x Hx) as [_ Ha]. cbv zeta in Ha.
    unfold archive_rows. rewrite Ha, route_anomaly by lia. reflexivity. }
  split; [exact Hfile|].
  rewrite (iteration_archive s e x Hx), Hp. cbn [Z.eqb]. fold rows.
  split; [rewrite tail_length, length_app; cbn [length]; lia|].
  rewrite tail_app_one by lia. split; intros Hlen.
  - replace (length rows + 1 - 1000)%nat with 0%nat by lia. reflexivity.
  - rewrite Hlen. change (1000 + 1 - 1000)%nat with 1%nat.
    now rewrite skipn_one_tl.
Qed.

(** Without a model ([ai_is_ready] false) nothing is detected: every live
    sample is labelled normal, raises no alert, resets the counter and is
    appended to the training buffer, the archive staying as it is.  The loop
    becomes ready exactly by a retraining. *)
Theorem detection_waits_for_a_model :
  (forall (s : Loop) (e : Env) (x : Sample),
      live e = Some x ->
      ai_is_ready s = false ->
      exists r : Report,
        snd (iteration s e) = Some r /\
        let s' := fst (iteration s e) in
        model_prediction r = 0 /\
        ai_status r = 0 /\
        anomaly_counter s' = 0 /\
        load_core_memory (files s')
        = tail 2000 (load_core_memory (files s) ++ [x]) /\
        archive_rows (files s') = archive_rows (files s))
  /\
  (forall (s : Loop) (e : Env) (r : Report),
      snd (iteration s e) = Some r ->
      ai_is_ready (fst (iteration s e)) = ai_is_ready s || retrained r).
Proof.
  split.
  - intros s e x Hx Hready.
    assert (Hp : raw_prediction s x = 0).
    { unfold raw_prediction, ai_is_ready in *.
      destruct (brain s) as [[m sc]|]; [discriminate | reflexivity]. }
    destruct (iteration_report s e x Hx) as (r & Hr & Hm & _ & Hst).
    exists r. split; [exact Hr|]. cbv zeta.
    rewrite Hp in *. cbn in Hst.
    split; [exact Hm|]. split; [exact Hst|].
    split; [rewrite (iteration_counter s e x Hx), Hp; reflexivity|].
    split; [now apply iteration_memory_normal|].
    rewrite (iteration_archive s e x Hx), Hp. reflexivity.
  - intros s e r Hr. destruct (live e) as [x|] eqn:Hx.
    + rewrite (iteration_live s e x Hx) in *. cbv zeta in *.
      cbn [fst snd] in *. injection Hr as <-. cbn [retrained].
      destruct (retrain_due _ _ _); cbn.
      * now rewrite orb_true_r.
      * now rewrite orb_false_r.
    + rewrite (iteration_idle s e Hx) in Hr. discriminate.
Qed.

Lemma live_count_cons (r : option Report) (reports : list (option Report)) :
  live_count (r :: reports)
  = (match r with Some _ => 1 | None => 0 end + live_count reports)%nat.
Proof. unfold live_count. cbn [filter]. destruct r; reflexivity. Qed.

Lemma iteration_counter_step (s : Loop) (e : Env) :
  0 <= anomaly_counter s ->
  0 <= anomaly_counter (fst (iteration s e))
  <= anomaly_counter s
     + Z.of_nat (live_count [snd (iteration s e)]).
Proof.
  intros Hc. destruct (live e) as [x|] eqn:Hx.
  - rewrite (iteration_counter s e x Hx).
    destruct (iteration_report s e x Hx) as (r & Hr & _). rewrite Hr.
    destruct (gate_cases (anomaly_counter s) (raw_prediction s x)
                (surge (cpu_usage x) (memory_usage x) (network_load x)))
      as [(_ & _ & Hg) | (_ & Hg)]; rewrite Hg; cbn; lia.
  - rewrite (iteration_idle s e Hx). cbn. lia.
Qed.

(** An alert is written only for a sample that the model flagged while the
    surge condition held, and only once the counter reached 12: whatever
    the samples are, an alert at some iteration of a run means that the
    counter the run started with plus the number of live iterations so far
    is at least 12.  From a counter of 0 no alert comes before the twelfth
    live sample.  The counter is never negative and grows by at most one per
    live sample. *)
Theorem alert_needs_twelve_live_samples :
  forall (s : Loop) (envs : list Env),
    0 <= anomaly_counter s ->
    let reports := snd (run_pipeline s envs) in
    0 <= anomaly_counter (fst (run_pipeline s envs))
    <= anomaly_counter s + Z.of_nat (live_count reports) /\
    forall (i : nat) (r : Report),
      nth_error reports i = Some (Some r) ->
      ai_status r = 1 ->
      qualifying (Some r) /\
      ANOMALY_THRESHOLD
      <= anomaly_counter s + Z.of_nat (live_count (firstn (S i) reports)).
Proof.
  intros s envs. revert s.
  induction envs as [|e rest IH]; intros s Hc reports; subst reports.
  - cbn. split; [lia|]. intros [|i] r H; discriminate.
  - rewrite run_pipeline_cons. cbn [fst snd].
    pose proof (iteration_counter_step s e Hc) as Hstep.
    rewrite live_count_cons in Hstep. cbn [live_count filter length] in Hstep.
    destruct (IH (fst (iteration s e)) (proj1 Hstep)) as [Hfin Hal].
    split.
    + rewrite live_count_cons.
      destruct (snd (iteration s e)); cbn in Hstep; lia.
    + intros [|i] r Hi Hst.
      * cbn [nth_error] in Hi. injection Hi as Hi.
        destruct (live e) as [x|] eqn:Hx;
          [|rewrite (iteration_idle s e Hx) in Hi; discriminate].
        destruct (iteration_report s e x Hx) as (r' & Hr & Hm & Hs & Hstat).
        rewrite Hi in Hr. injection Hr as <-.
        rewrite Hstat in Hst. cbn [qualifying]. rewrite Hm, Hs.
        destruct (gate_cases (anomaly_counter s) (raw_prediction s x)
                    (surge (cpu_usage x) (memory_usage x) (network_load x)))
          as [(Hp & Hg & Hgate) | (_ & Hgate)];
          rewrite Hgate in Hst; cbn [snd] in Hst; [|discriminate].
        split; [tauto|]. rewrite Hi.
        cbn [firstn]. rewrite live_count_cons. cbn.
        destruct (_ >=? _) eqn:E; [lia | discriminate].
      * cbn [nth_error] in Hi. destruct (Hal i r Hi Hst) as [Hq Hge].
        split; [exact Hq|].
        change (firstn (S (S i)) (snd (iteration s e)
                  :: snd (run_pipeline (fst (iteration s e)) rest)))
          with (snd (iteration s e)
                  :: firstn (S i) (snd (run_pipeline (fst (iteration s e)) rest))).
        rewrite live_count_cons.
        destruct (snd (iteration s e)); cbn in Hstep; lia.
Qed.





Lemma route_keeps_pickles (fs : Files) (p : Z) (x : Sample) (now : string) :
  MODEL_PKL (fst (route fs p x now)) = MODEL_PKL fs /\
  SCALER_PKL (fst (route fs p x now)) = SCALER_PKL fs.
Proof. unfold route. destruct (p =? 0); split; reflexivity. Qed.

Lemma iteration_on_disk (s : Loop) (e : Env) :
  brain s = on_disk (files s) ->
  brain (fst (iteration s e)) = on_disk (files (fst (iteration s e))).
Proof.
  intros Hs. destruct (live e) as [x|] eqn:Hx.
  - rewrite (iteration_live s e x Hx). cbv zeta. cbn [fst].
    destruct (retrain_due _ _ _); [reflexivity|]. cbn [brain files].
    unfold on_disk.
    destruct (route_keeps_pickles (files s) (raw_prediction s x) x (utcnow e))
      as [-> ->]. exact Hs.
  - rewrite (iteration_idle s e Hx). exact Hs.
Qed.

(** The model in use is the model on disk: the loop starts from the two
    pickles when both are there (and from no model otherwise), every
    retraining writes the pair it puts in use, and nothing else touches
    them.  So a restart after any run resumes with the files and the model
    the loop had. *)
Theorem restart_resumes_the_model :
  (forall (fs : Files) (counter : Z) (now : Q),
      brain (startup fs counter now) = on_disk fs /\
      files (startup fs counter now) = fs /\
      (ai_is_ready (startup fs counter now) = true <->
       MODEL_PKL fs <> None /\ SCALER_PKL fs <> None))
  /\
  (forall (s : Loop) (envs : list Env),
      brain s = on_disk (files s) ->
      let s' := fst (run_pipeline s envs) in
      brain s' = on_disk (files s') /\
      forall (counter : Z) (now : Q),
        brain (startup (files s') counter now) = brain s' /\
        files (startup (files s') counter now) = files s').
Proof.
  split.
  - intros fs counter now. split; [reflexivity|]. split; [reflexivity|].
    unfold ai_is_ready, startup. cbn [brain].
    destruct (MODEL_PKL fs), (SCALER_PKL fs); split;
      try discriminate; try (intros [H1 H2]; congruence);
      try reflexivity; split; discriminate.
  - intros s envs. revert s.
    assert (Hrun : forall envs s, brain s = on_disk (files s) ->
                     brain (fst (run_pipeline s envs))
                     = on_disk (files (fst (run_pipeline s envs)))).
    { induction envs0 as [|e rest IH]; intros s Hs; [exact Hs|].
      rewrite run_pipeline_cons. cbn [fst]. apply IH.
      now apply iteration_on_disk. }
    intros s Hs s'. subst s'. split; [now apply Hrun|].
    intros counter now. split; [|reflexivity].
    rewrite (Hrun envs s Hs). reflexivity.
Qed.

End PipelineFurther.

(** ** Fetching the live sample *)

Section FetchProperties.
Variable fromisoformat : string -> result Q.
Context {SK : Sklearn}.
Local Open Scope Q_scope.

Lemma network_rate_without_previous (previous : PreviousNetwork)
    (current_bytes : option Q) (current_time : string) :
  previous_bytes previous = None \/ previous_time previous = None ->
  network_rate fromisoformat previous current_bytes current_time = Ok None.
Proof.
  unfold network_rate. intros [H | H]; rewrite H; [reflexivity|].
  destruct (previous_bytes previous); reflexivity.
Qed.

(** What the body answers once the three queries have answered. *)
Lemma fetch_body_answered (db : Influx) (previous : PreviousNetwork)
    (cpu mem net : list InfluxPoint) :
  cpu_query db = Ok cpu ->
  mem_query db = Ok mem ->
  net_query db = Ok net ->
  fetch_body fromisoformat db previous =
  let cpu_val :=
    match first_field cpu "usage_idle" with
    | Some (Some usage_idle) => Some (100 - usage_idle)
    | _ => None
    end in
  let mem_val :=
    match first_field mem "used_percent" with
    | Some v => v
    | None => None
    end in
  bind
    match net with
    | p :: _ =>
        match dict_lookup (point_fields p) "bytes_recv" with
        | Some current_bytes =>
            bind (network_rate fromisoformat previous current_bytes
                    (point_time p))
              (fun net_val =>
                 Ok (net_val,
                     mkPreviousNetwork current_bytes (Some (point_time p))))
        | None => Ok (None, previous)
        end
    | [] => Ok (None, previous)
    end
    (fun '(net_val, previous) =>
       match cpu_val, mem_val, net_val with
       | Some c, Some m, Some n => Ok (Some (mkSample c m n), previous)
       | _, _, _ => Ok (None, previous)
       end).
Proof.
  intros Hc Hm Hn. unfold fetch_body. rewrite Hc, Hm, Hn. reflexivity.
Qed.

(** The first poll after a start never delivers a sample, because a rate
    needs an earlier reading; it records the reading it saw, so that the
    next poll can.  The pass of the loop that made it leaves the loop
    variables as they were and reports nothing. *)
Theorem first_poll_yields_no_sample :
  forall (db : Influx) (previous : PreviousNetwork),
    previous_bytes previous = None \/ previous_time previous = None ->
    fst (fetch_live_logs fromisoformat db previous) = None /\
    (forall (cpu mem net : list InfluxPoint) (p : InfluxPoint)
            (current_bytes : option Q),
        cpu_query db = Ok cpu ->
        mem_query db = Ok mem ->
        net_query db = Ok (p :: net) ->
        dict_lookup (point_fields p) "bytes_recv" = Some current_bytes ->
        snd (fetch_live_logs fromisoformat db previous)
        = mkPreviousNetwork current_bytes (Some (point_time p))) /\
    (forall (s : Loop) (t : Tick),
        tick_db t = db ->
        fst (fst (poll fromisoformat s previous t)) = s /\
        snd (poll fromisoformat s previous t) = None).
Proof.
  intros db previous Hprev.
  assert (Hnone : fst (fetch_live_logs fromisoformat db previous) = None).
  { unfold fetch_live_logs.
    destruct (cpu_query db) as [cpu|e] eqn:Hc;
      [|unfold fetch_body; rewrite Hc; reflexivity].
    destruct (mem_query db) as [mem|e] eqn:Hm;
      [|unfold fetch_body; rewrite Hc, Hm; reflexivity].
    destruct (net_query db) as [net|e] eqn:Hn;
      [|unfold fetch_body; rewrite Hc, Hm, Hn; reflexivity].
    rewrite (fetch_body_answered db previous cpu mem net Hc Hm Hn). cbv zeta.
    destruct net as [|p net]; cbn [bind].
    - destruct (first_field cpu "usage_idle") as [[?|]|];
        destruct (first_field mem "used_percent") as [[?|]|]; reflexivity.
    - destruct (dict_lookup (point_fields p) _) as [cb|]; cbn [bind].
      + rewrite network_rate_without_previous by exact Hprev. cbn [bind].
        destruct (first_field cpu "usage_idle") as [[?|]|];
          destruct (first_field mem "used_percent") as [[?|]|]; reflexivity.
      + destruct (first_field cpu "usage_idle") as [[?|]|];
          destruct (first_field mem "used_percent") as [[?|]|]; reflexivity. }
  split; [exact Hnone|]. split.
  - intros cpu mem net p cb Hc Hm Hn Hb. unfold fetch_live_logs.
    rewrite (fetch_body_answered db previous cpu mem (p :: net) Hc Hm Hn).
    cbv zeta. rewrite Hb. cbn [bind].
    rewrite network_rate_without_previous by exact Hprev. cbn [bind].
    destruct (first_field cpu "usage_idle") as [[?|]|];
      destruct (first_field mem "used_percent") as [[?|]|]; reflexivity.
  - intros s t Ht. unfold poll. rewrite Ht.
    destruct (fetch_live_logs fromisoformat db previous) as [live_df prev'].
    cbn [fst] in Hnone. subst live_df.
    rewrite iteration_idle by reflexivity. split; reflexivity.
Qed.

(** A sample is delivered only when the three queries answered, each with
    a first point that has its field set, and the earlier network reading
    is strictly older than the current one.  Its CPU usage is 100 minus the
    idle share, its memory usage the used share, and its network load the
    bytes received per second since the earlier reading, 0 when the byte
    counter went backwards: never negative.  The current reading becomes
    the earlier one of the next poll. *)
Theorem fetched_sample_is_complete :
  forall (db : Influx) (previous previous' : PreviousNetwork) (x : Sample),
    fetch_live_logs fromisoformat db previous = (Some x, previous') ->
    exists (cpu mem net : list InfluxPoint) (p : InfluxPoint)
           (idle used b b0 t1 t0 : Q) (stamp0 : string),
      cpu_query db = Ok cpu /\
      mem_query db = Ok mem /\
      net_query db = Ok (p :: net) /\
      first_field cpu "usage_idle" = Some (Some idle) /\
      first_field mem "used_percent" = Some (Some used) /\
      dict_lookup (point_fields p) "bytes_recv" = Some (Some b) /\
      previous = mkPreviousNetwork (Some b0) (Some stamp0) /\
      fromisoformat (point_time p) = Ok t1 /\
      fromisoformat stamp0 = Ok t0 /\
      t0 < t1 /\
      cpu_usage x = 100 - idle /\
      memory_usage x = used /\
      network_load x
      = (if Qle_bool ((b - b0) / (t1 - t0)) 0 then 0
         else (b - b0) / (t1 - t0)) /\
      0 <= network_load x /\
      previous' = mkPreviousNetwork (Some b) (Some (point_time p)).
Proof.
  intros db previous previous' x. unfold fetch_live_logs.
  destruct (fetch_body fromisoformat db previous) as [[live_df prev']|e] eqn:Hb;
    [|discriminate].
  intros H. injection H as -> ->.
  destruct (cpu_query db) as [cpu|e] eqn:Hc;
    [|unfold fetch_body in Hb; rewrite Hc in Hb; discriminate].
  destruct (mem_query db) as [mem|e] eqn:Hm;
    [|unfold fetch_body in Hb; rewrite Hc, Hm in Hb; discriminate].
  destruct (net_query db) as [net|e] eqn:Hn;
    [|unfold fetch_body in Hb; rewrite Hc, Hm, Hn in Hb; discriminate].
  rewrite (fetch_body_answered db previous cpu mem net Hc Hm Hn) in Hb.
  cbv zeta in Hb.
  destruct net as [|p net]; cbn [bind] in Hb.
  { destruct (first_field cpu "usage_idle") as [[?|]|];
      destruct (first_field mem "used_percent") as [[?|]|]; discriminate. }
  destruct (dict_lookup (point_fields p) "bytes_recv") as [cb|] eqn:Hbytes;
    cbn [bind] in Hb.
  2:{ destruct (first_field cpu "usage_idle") as [[?|]|];
        destruct (first_field mem "used_percent") as [[?|]|]; discriminate. }
  destruct (network_rate fromisoformat previous cb (point_time p))
    as [net_val|e] eqn:Hrate; cbn [bind] in Hb; [|discriminate].
  destruct (first_field cpu "usage_idle") as [[idle|]|] eqn:Hidle;
    destruct (first_field mem "used_percent") as [[used|]|] eqn:Hused;
    destruct net_val as [rate|]; try discriminate.
  injection Hb as <- <-.
  unfold network_rate in Hrate.
  destruct previous as [[b0|] [stamp0|]]; cbn in Hrate; try discriminate.
  destruct (fromisoformat (point_time p)) as [t1|e] eqn:Ht1; cbn [bind] in Hrate;
    [|discriminate].
  destruct (fromisoformat stamp0) as [t0|e] eqn:Ht0; cbn [bind] in Hrate;
    [|discriminate].
  destruct (Qle_bool (t1 - t0) 0) eqn:Hdiff; cbn [negb] in Hrate;
    [discriminate|].
  destruct cb as [b|]; [|discriminate].
  assert (Hlt : t0 < t1).
  { apply Qnot_le_lt. intros Hle.
    assert (Qle_bool (t1 - t0) 0 = true) by (apply Qle_bool_iff; lra).
    congruence. }
  rewrite truediv_ok in Hrate by lra. cbn [bind] in Hrate.
  injection Hrate as <-.
  exists cpu, mem, net, p, idle, used, b, b0, t1, t0, stamp0.
  repeat split; try reflexivity; try assumption.
  cbn [network_load].
  destruct (Qle_bool ((b - b0) / (t1 - t0)) 0) eqn:E; [apply Qle_refl|].
  apply Qlt_le_weak, Qnot_le_lt. intros Hle.
  apply Qle_bool_iff in Hle. congruence.
Qed.

(** Failures of a poll.  When a query raises, nothing is delivered and
    [previous_network] stays as it was.  The same holds when the current or
    the stored timestamp does not parse; as the stored one is then never
    replaced, a stored timestamp that does not parse blocks every later
    poll.  When the current reading is not newer than the stored one,
    nothing is delivered but the reading is stored. *)
Theorem failed_poll_delivers_nothing :
  (forall (db : Influx) (previous : PreviousNetwork) (e : exn),
      cpu_query db = Raise e \/ mem_query db = Raise e
      \/ net_query db = Raise e ->
      fetch_live_logs fromisoformat db previous = (None, previous))
  /\
  (forall (db : Influx) (cpu mem net : list InfluxPoint) (p : InfluxPoint)
          (current_bytes : option Q) (b0 : Q) (stamp0 : string),
      cpu_query db = Ok cpu ->
      mem_query db = Ok mem ->
      net_query db = Ok (p :: net) ->
      dict_lookup (point_fields p) "bytes_recv" = Some current_bytes ->
      let previous := mkPreviousNetwork (Some b0) (Some stamp0) in
      ((exists e, fromisoformat (point_time p) = Raise e) \/
       (exists e, fromisoformat stamp0 = Raise e) ->
       fetch_live_logs fromisoformat db previous = (None, previous)) /\
      (forall t1 t0 : Q,
          fromisoformat (point_time p) = Ok t1 ->
          fromisoformat stamp0 = Ok t0 ->
          t1 <= t0 ->
          fetch_live_logs fromisoformat db previous
          = (None, mkPreviousNetwork current_bytes (Some (point_time p))))).
Proof.
  split.
  - intros db previous e H. unfold fetch_live_logs, fetch_body.
    destruct (cpu_query db) as [cpu|e1] eqn:Hc; [|reflexivity].
    destruct (mem_query db) as [mem|e2] eqn:Hm; [|reflexivity].
    destruct (net_query db) as [net|e3] eqn:Hn; [|reflexivity].
    destruct H as [H | [H | H]]; discriminate.
  - intros db cpu mem net p cb b0 stamp0 Hc Hm Hn Hb previous.
    unfold fetch_live_logs.
    rewrite (fetch_body_answered db previous cpu mem (p :: net) Hc Hm Hn).
    cbv zeta. rewrite Hb. cbn [bind]. unfold network_rate. subst previous.
    cbn [previous_bytes previous_time]. split.
    + intros [[e He] | [e He]].
      * rewrite He. reflexivity.
      * rewrite He. destruct (fromisoformat (point_time p)); reflexivity.
    + intros t1 t0 H1 H0 Hle. rewrite H1, H0. cbn [bind].
      assert (Hd : Qle_bool (t1 - t0) 0 = true) by (apply Qle_bool_iff; lra).
      rewrite Hd. cbn [negb bind].
      destruct (first_field cpu "usage_idle") as [[?|]|];
        destruct (first_field mem "used_percent") as [[?|]|]; reflexivity.
Qed.

End FetchProperties.

(** ** The ensemble: range, threshold, weights and failures *)

Section EnsembleFurther.
Local Open Scope Q_scope.




Lemma Qsum_map_id (l : list Q) : Qsum (map (fun x => x) l) = Qsum l.
Proof. now rewrite map_id. Qed.







(** *** The threshold *)

Lemma weighted_sums_models (a b : EnsembleDetector) (votes : dict Vote) :
  models a = models b ->
  forall ws w : Q, weighted_sums a votes ws w = weighted_sums b votes ws w.
Proof.
  intros Hm. induction votes as [|[name v] votes IH]; intros ws w;
    [reflexivity|].
  cbn [weighted_sums]. destruct (vote_score v); [|apply IH].
  rewrite Hm. destruct (truediv _ _); cbn [bind]; [apply IH | reflexivity].
Qed.

Lemma weighted_sums_need_models (self : EnsembleDetector) (items : dict Vote) :
  forall ws0 w0 ws w : Q,
    weighted_sums self items ws0 w0 = Ok (ws, w) ->
    abs_scores_of items <> [] ->
    models self <> [].
Proof.
  induction items as [|[name v] items IH]; intros ws0 w0 ws w Hrun Hne;
    [now contradiction Hne|].
  cbn [weighted_sums] in Hrun. rewrite abs_scores_cons in Hne. cbn [snd] in Hne.
  destruct (vote_score v).
  - intros E. rewrite E in Hrun. cbn in Hrun. discriminate.
  - cbn [app] in Hne. exact (IH _ _ _ _ Hrun Hne).
Qed.

Lemma weight_sum_positive (self : EnsembleDetector) (votes : dict Vote)
    (ws w : Q) :
  weighted_sums self votes 0 0 = Ok (ws, w) ->
  abs_scores_of votes <> [] ->
  0 < w.
Proof.
  intros Hrun Hne.
  pose proof (weighted_sums_need_models self votes 0 0 ws w Hrun Hne) as Hm.
  destruct (weighted_sums_ok self votes Hm 0 0) as (ws' & w' & Hrun' & _ & Hw).
  rewrite Hrun' in Hrun. injection Hrun as -> ->.
  assert (0 < Qsum (map (fun item => weight_of self (fst item))
                      (scored_items votes))).
  { apply Qsum_positive.
    - intros E. apply map_eq_nil in E. apply Hne.
      rewrite <- abs_scores_of_scored_items, E. reflexivity.
    - apply Forall_map, Forall_forall. intros it _.
      now apply weight_positive. }
  lra.
Qed.

(** Two detectors with the same strategy and models reach the same score,
    or the same exception, on the same votes; under the strategy hard they
    reach the same label as well. *)
Lemma aggregate_same_score (a b : EnsembleDetector) (votes : dict Vote) :
  strategy a = strategy b ->
  models a = models b ->
  match aggregate a votes with
  | Ok (sc, label) =>
      exists label' : Z,
        aggregate b votes = Ok (sc, label') /\
        (strategy a = "hard"%string -> label' = label) /\
        (strategy a <> "hard"%string -> abs_scores_of votes <> [] ->
         label' = if Qle_bool (threshold b) sc then 1%Z else 0%Z)
  | Raise e => aggregate b votes = Raise e
  end.
Proof.
  intros Hs Hm. unfold aggregate. rewrite <- Hs.
  destruct (String.eqb (strategy a) "hard") eqn:Eh.
  { apply String.eqb_eq in Eh.
    destruct (_hard_voting votes) as [[sc label]|e]; [|reflexivity].
    exists label. split; [reflexivity|]. split; [reflexivity | congruence]. }
  destruct (String.eqb (strategy a) "soft").
  { unfold _soft_voting. destruct (abs_scores_of votes) as [|s ss].
    - eexists. split; [reflexivity|]. apply String.eqb_neq in Eh.
      split; [contradiction | congruence].
    - destruct (normalize s ss) as [normalized|e]; cbn [bind]; [|reflexivity].
      destruct (np_mean normalized) as [sc|e]; cbn [bind]; [|reflexivity].
      eexists. split; [reflexivity|]. apply String.eqb_neq in Eh.
      split; [contradiction | reflexivity]. }
  destruct (String.eqb (strategy a) "weighted"); [|reflexivity].
  unfold _weighted_voting. rewrite (weighted_sums_models a b votes Hm).
  destruct (weighted_sums b votes 0 0) as [[ws w]|e] eqn:Hsums; cbn [bind];
    [|reflexivity].
  apply String.eqb_neq in Eh.
  destruct (Qeq_bool w 0) eqn:Ew.
  { eexists. split; [reflexivity|]. split; [contradiction|].
    intros _ Hne. exfalso.
    pose proof (weight_sum_positive b votes ws w Hsums Hne) as Hpos.
    apply Qeq_bool_iff in Ew. lra. }
  destruct (if negb (Qle_bool w 0) then truediv ws w else Ok 0)
    as [sc0|e]; cbn [bind]; [|reflexivity].
  destruct (if negb (Qle_bool (max_default (abs_scores_of votes) 1) 0)
            then truediv sc0 (max_default (abs_scores_of votes) 1)
            else Ok sc0) as [sc|e]; cbn [bind]; [|reflexivity].
  eexists. split; [reflexivity|]. split; [contradiction | reflexivity].
Qed.

(** [set_threshold] moves only the cut between normal and anomaly: the
    detector it returns reaches, on every input, the same score and votes
    (or the same exception) as before.  Under the strategy hard the label is
    the same too, so the threshold has no effect at all; under soft and
    weighted the new label, when a model scored, is anomaly exactly when
    the score reaches the new threshold. *)
Theorem threshold_moves_only_the_cut :
  forall (self self' : EnsembleDetector) (thr : Q) (features : list Q),
    set_threshold self thr = Ok self' ->
    (forall e : exn,
        predict self features = Raise e -> predict self' features = Raise e)
    /\
    (forall (sc : Q) (label : Z) (votes : dict Vote),
        predict self features = Ok (sc, label, votes) ->
        exists label' : Z,
          predict self' features = Ok (sc, label', votes) /\
          (strategy self = "hard"%string -> label' = label) /\
          (strategy self <> "hard"%string ->
           abs_scores_of votes <> [] ->
           (label' = 1%Z <-> thr <= sc))).
Proof.
  intros self self' thr features Hset.
  assert (Hself : self' = mkEnsembleDetector (models_dir self) (strategy self)
                            thr (models self) (scaler self)).
  { unfold set_threshold in Hset.
    destruct (negb _); [discriminate | now injection Hset as <-]. }
  subst self'. set (self' := mkEnsembleDetector _ _ _ _ _).
  pose proof (fun votes => aggregate_same_score self self' votes eq_refl eq_refl)
    as Hagg.
  unfold predict. change (scale self' features) with (scale self features).
  change (models self') with (models self).
  destruct (negb (length features =? 3)%nat).
  { split; [intros e H; exact H | intros sc label votes H; discriminate]. }
  destruct (scale self features) as [fs|e]; cbn [bind].
  2:{ split; [intros e' H; exact H | intros sc label votes H; discriminate]. }
  specialize (Hagg (collect_votes (models self) fs [])).
  destruct (aggregate self _) as [[sc label]|e]; cbn [bind].
  - destruct Hagg as (label' & Hrun & Hhard & Hcut). rewrite Hrun. cbn [bind].
    split; [intros e H; discriminate|].
    intros sc0 label0 votes H. injection H as <- <- <-.
    exists label'. split; [reflexivity|]. split; [exact Hhard|].
    intros Hs Hne. rewrite (Hcut Hs Hne). cbn [threshold self'].
    apply label_threshold.
  - rewrite Hagg. cbn [bind].
    split; [intros e' H; exact H | intros sc label votes H; discriminate].
Qed.

(** *** Equal weights *)




(** *** Every model failing *)

Lemma collect_votes_Forall (P : string * Vote -> Prop) (fs : list Q)
    (items : dict Estimator) :
  (forall item, In item items -> P (recorded fs item)) ->
  forall acc : dict Vote, Forall P acc -> Forall P (collect_votes items fs acc).
Proof.
  induction items as [|[name model] items IH]; intros Hall acc Hacc;
    [exact Hacc|].
  cbn [collect_votes]. apply IH.
  - intros item Hi. apply Hall. now right.
  - apply dict_set_Forall; [exact Hacc|].
    apply (Hall (name, model)). now left.
Qed.

Lemma unscored_votes (votes : dict Vote) :
  Forall (fun item => is_scored item = false) votes ->
  abs_scores_of votes = [].
Proof.
  induction 1 as [|[name v] votes Hv _ IH]; [reflexivity|].
  rewrite abs_scores_cons, IH. destruct v; [discriminate | reflexivity].
Qed.

(** When every model raises, [predict] still returns, under each of the
    three strategies: the score 0 and the label normal, with nothing but
    error entries in the vote map.  A detector none of whose models works is
    thus indistinguishable, by score and label, from a quiet system. *)
Theorem all_models_failing_reads_normal :
  forall (self : EnsembleDetector) (features fs : list Q),
    dict_mem ENSEMBLE_STRATEGIES (strategy self) = true ->
    length features = 3%nat ->
    scale self features = Ok fs ->
    (forall item, In item (models self) -> answers fs item = false) ->
    let votes := collect_votes (models self) fs [] in
    predict self features = Ok (0, 0%Z, votes) /\
    Forall (fun item => is_scored item = false) votes /\
    voters votes = 0%nat.
Proof.
  intros self features fs Hs Hlen Hscale Hfail votes.
  assert (Hall : Forall (fun item => is_scored item = false) votes).
  { apply collect_votes_Forall; [|constructor].
    intros item Hi. rewrite recorded_scored. now apply Hfail. }
  pose proof (unscored_votes votes Hall) as Hnone.
  assert (Hpred : predictions_of votes = []).
  { apply length_zero_iff_nil. now rewrite predictions_length_scores, Hnone. }
  split; [|split; [exact Hall | unfold voters; now rewrite Hpred]].
  rewrite (predict_unfold self features fs Hlen Hscale). fold votes.
  apply known_strategy in Hs. unfold aggregate.
  destruct Hs as [-> | [-> | ->]]; cbn [String.eqb Ascii.eqb Bool.eqb].
  - unfold _hard_voting. now rewrite Hpred.
  - unfold _soft_voting. now rewrite Hnone.
  - now rewrite weighted_voting_unscored.
Qed.

(** *** Loading the models and the scaler *)

Lemma dict_lookup_set {V : Type} (d : dict V) (k k' : string) (v : V) :
  dict_lookup (dict_set d k v) k'
  = if String.eqb k k' then Some v else dict_lookup d k'.
Proof.
  induction d as [|[k0 v0] d IH]; cbn [dict_set dict_lookup]; [reflexivity|].
  destruct (String.eqb k0 k) eqn:E0; cbn [dict_lookup].
  - apply String.eqb_eq in E0. subst k0.
    destruct (String.eqb k k'); reflexivity.
  - rewrite IH. destruct (String.eqb k0 k') eqn:E1; [|reflexivity].
    apply String.eqb_eq in E1. subst k0.
    rewrite String.eqb_sym in E0. now rewrite E0.
Qed.

Lemma existsb_filter (k : string) (f : string -> bool) (l : list string) :
  existsb (String.eqb k) (filter f l) = existsb (String.eqb k) l && f k.
Proof.
  induction l as [|x l IH]; [reflexivity|].
  cbn [filter existsb]. destruct (f x) eqn:Ef; cbn [existsb]; rewrite IH.
  - destruct (String.eqb k x) eqn:E; [|reflexivity].
    apply String.eqb_eq in E. subst x. now rewrite Ef.
  - destruct (String.eqb k x) eqn:E; [|reflexivity].
    apply String.eqb_eq in E. subst x. rewrite Ef.
    now rewrite !andb_false_r.
Qed.

(** The dictionary the loading loop builds: a file of the list is a key
    exactly when it loads, with the model it loads to. *)
Lemma loading_loop_lookup (disk : Disk) (dir : string) (l : list string) :
  forall (acc : dict Estimator) (k : string),
    dict_lookup
      (fold_left
         (fun acc model_file =>
            match load_model disk (os_path_join dir model_file) with
            | Ok model => dict_set acc model_file model
            | Raise _ => acc
            end) l acc) k
    = match (if existsb (String.eqb k) l then loads disk dir k else None) with
      | Some model => Some model
      | None => dict_lookup acc k
      end.
Proof.
  induction l as [|f l IH]; intros acc k; [reflexivity|].
  cbn [fold_left existsb]. rewrite IH.
  destruct (existsb (String.eqb k) l) eqn:El.
  - rewrite orb_true_r. destruct (loads disk dir k) eqn:Ek; [reflexivity|].
    destruct (load_model disk (os_path_join dir f)) as [m|e] eqn:Ef;
      [|reflexivity].
    rewrite dict_lookup_set. destruct (String.eqb f k) eqn:E; [|reflexivity].
    apply String.eqb_eq in E. subst f. unfold loads in Ek.
    rewrite Ef in Ek. discriminate.
  - rewrite orb_false_r. unfold loads.
    destruct (String.eqb k f) eqn:E.
    + apply String.eqb_eq in E. subst f.
      destruct (load_model disk (os_path_join dir k)) as [m|e]; [|reflexivity].
      rewrite dict_lookup_set, String.eqb_refl. reflexivity.
    + destruct (load_model disk (os_path_join dir f)) as [m|e]; [|reflexivity].
      rewrite dict_lookup_set, String.eqb_sym, E. reflexivity.
Qed.

(** [_load_models] takes the files of the directory whose names end in
    ["_model.pkl"] and that load, each under its file name, and skips the
    others (a file that fails to load is passed over).  It raises
    [FileNotFoundError] when the directory is missing or lists no such
    file, and [RuntimeError] when none of them loads; otherwise it returns
    at least one model. *)
Theorem load_models_takes_the_model_files :
  forall (disk : Disk) (dir : string),
    (path_exists disk dir = false ->
     _load_models disk dir
     = Raise (FileNotFoundError ("Models directory not found: " ++ dir)))
    /\
    (path_exists disk dir = true ->
     (forall f, In f (listdir disk dir) -> endswith f "_model.pkl" = false) ->
     _load_models disk dir
     = Raise (FileNotFoundError ("No models found in: " ++ dir)))
    /\
    (path_exists disk dir = true ->
     (exists f, In f (listdir disk dir) /\ endswith f "_model.pkl" = true) ->
     (forall f, In f (listdir disk dir) -> endswith f "_model.pkl" = true ->
                loads disk dir f = None) ->
     _load_models disk dir = Raise (RuntimeError "No models loaded successfully"))
    /\
    (path_exists disk dir = true ->
     (exists f, In f (listdir disk dir) /\ endswith f "_model.pkl" = true /\
                loads disk dir f <> None) ->
     exists ms, _load_models disk dir = Ok ms)
    /\
    (forall ms : dict Estimator,
        _load_models disk dir = Ok ms ->
        ms <> [] /\
        forall name : string,
          dict_lookup ms name
          = if existsb (String.eqb name) (listdir disk dir)
               && endswith name "_model.pkl"
            then loads disk dir name else None).
Proof.
  intros disk dir. unfold _load_models.
  set (suffix := fun f => endswith f "_model.pkl").
  set (step := fun (acc : dict Estimator) (model_file : string) =>
                 match load_model disk (os_path_join dir model_file) with
                 | Ok model => dict_set acc model_file model
                 | Raise _ => acc
                 end).
  assert (Hlook : forall k,
             dict_lookup (fold_left step (filter suffix (listdir disk dir)) []) k
             = if existsb (String.eqb k) (listdir disk dir) && suffix k
               then loads disk dir k else None).
  { intros k. unfold step. rewrite loading_loop_lookup, existsb_filter.
    destruct (_ && _); [destruct (loads disk dir k)|]; reflexivity. }
  set (L := filter suffix (listdir disk dir)) in *.
  assert (Hmatch : forall (X : Type) (a b : X),
             L <> [] -> match L with [] => a | _ :: _ => b end = b).
  { intros X a b HL. destruct L; congruence. }
  assert (HL : forall f, In f (listdir disk dir) ->
                         endswith f "_model.pkl" = true -> L <> []).
  { intros f Hin Hs E.
    assert (Hf : In f L) by (apply filter_In; split; assumption).
    rewrite E in Hf. contradiction. }
  remember (fold_left step L []) as R eqn:ER.
  split; [intros ->; reflexivity|].
  split.
  { intros -> Hnone. cbn [negb].
    destruct L as [|f fs] eqn:E; [reflexivity|].
    assert (Hin : In f (filter suffix (listdir disk dir)))
      by (fold L; rewrite E; now left).
    apply filter_In in Hin. destruct Hin as [Hin Hs].
    unfold suffix in Hs. rewrite (Hnone f Hin) in Hs. discriminate. }
  split.
  { intros -> (f & Hin & Hs) Hfail. cbn [negb].
    rewrite Hmatch by (now apply (HL f)).
    destruct R as [|[k m] ms]; [reflexivity|].
    exfalso. pose proof (Hlook k) as Hk.
    cbn [dict_lookup] in Hk. rewrite String.eqb_refl in Hk.
    destruct (existsb (String.eqb k) (listdir disk dir)) eqn:Ex;
      cbn [andb] in Hk; [|discriminate].
    destruct (suffix k) eqn:Es; [|discriminate].
    apply existsb_exists in Ex. destruct Ex as (k' & Hk' & Heq).
    apply String.eqb_eq in Heq. subst k'.
    rewrite (Hfail k Hk' Es) in Hk. discriminate. }
  split.
  { intros -> (f & Hin & Hs & Hload). cbn [negb].
    rewrite Hmatch by (now apply (HL f)).
    destruct R as [|item ms]; [|eauto].
    exfalso. pose proof (Hlook f) as Hf.
    cbn [dict_lookup] in Hf.
    assert (Hex : existsb (String.eqb f) (listdir disk dir) = true).
    { apply existsb_exists. exists f. split; [exact Hin|].
      apply String.eqb_refl. }
    unfold suffix in Hf. rewrite Hex, Hs in Hf. cbn [andb] in Hf.
    destruct (loads disk dir f); [discriminate | now apply Hload]. }
  intros ms Hms.
  destruct (path_exists disk dir); cbn [negb] in Hms; [|discriminate].
  destruct L as [|f0 fs]; [discriminate|].
  destruct R as [|item ms']; [discriminate|].
  injection Hms as <-. split; [discriminate|].
  intros name. apply Hlook.
Qed.

Lemma load_scaler_chosen (disk : Disk) (dir : string)
    (scaler_path : option string) :
  _load_scaler disk dir scaler_path =
  match chosen_scaler disk dir scaler_path with
  | Some path => bind (load_scaler disk path) (fun sc => Ok (Some sc))
  | None => Ok None
  end.
Proof.
  unfold _load_scaler, chosen_scaler. cbv zeta.
  destruct scaler_path as [p|].
  - destruct (negb (String.eqb p EmptyString) && path_exists disk p);
      [reflexivity|].
    destruct (path_exists disk (os_path_join dir "scaler.pkl")); reflexivity.
  - destruct (path_exists disk (os_path_join dir "scaler.pkl")); reflexivity.
Qed.

Lemma init_scaler (disk : Disk) (dir : string) (scaler_path : option string)
    (strat : string) (thr : Q) :
  dict_mem ENSEMBLE_STRATEGIES (lower strat) = true ->
  match _load_scaler disk dir scaler_path with
  | Ok sc =>
      forall self, __init__ disk dir scaler_path strat thr = Ok self ->
                   scaler self = sc
  | Raise e => __init__ disk dir scaler_path strat thr = Raise e
  end.
Proof.
  intros Hs. unfold __init__. rewrite Hs. cbn [negb].
  destruct (_load_scaler disk dir scaler_path) as [sc|e]; cbn [bind];
    [|reflexivity].
  intros self. destruct (_load_models disk dir); cbn [bind]; [|discriminate].
  intros H. injection H as <-. reflexivity.
Qed.

(** The constructor reads one scaler at most: the file at [scaler_path]
    when that path is given, not empty and exists; else
    [models_dir/scaler.pkl] when that exists; else none, and the detector
    then scores the features unscaled.  A scaler file that is chosen but
    fails to load aborts the construction (unlike a model file). *)
Theorem scaler_is_chosen_by_precedence :
  forall (disk : Disk) (dir : string) (scaler_path : option string)
         (strat : string) (thr : Q),
    dict_mem ENSEMBLE_STRATEGIES (lower strat) = true ->
    let explicit :=
      match scaler_path with
      | Some p => negb (String.eqb p EmptyString) && path_exists disk p
      | None => false
      end in
    let default_scaler := os_path_join dir "scaler.pkl" in
    let reads (path : string) :=
      (forall e, load_scaler disk path = Raise e ->
                 __init__ disk dir scaler_path strat thr = Raise e) /\
      (forall self, __init__ disk dir scaler_path strat thr = Ok self ->
                    exists sc, load_scaler disk path = Ok sc /\
                               scaler self = Some sc) in
    (forall p, scaler_path = Some p -> explicit = true -> reads p) /\
    (explicit = false -> path_exists disk default_scaler = true ->
     reads default_scaler) /\
    (explicit = false -> path_exists disk default_scaler = false ->
     forall self, __init__ disk dir scaler_path strat thr = Ok self ->
                  scaler self = None /\
                  forall features, scale self features = Ok features).
Proof.
  intros disk dir scaler_path strat thr Hs explicit default_scaler reads.
  pose proof (init_scaler disk dir scaler_path strat thr Hs) as Hinit.
  rewrite load_scaler_chosen in Hinit.
  assert (Hreads : forall path,
             chosen_scaler disk dir scaler_path = Some path -> reads path).
  { intros path Hc. rewrite Hc in Hinit. unfold reads. split.
    - intros e He. rewrite He in Hinit. exact Hinit.
    - intros self Hself. destruct (load_scaler disk path) as [sc|e].
      + exists sc. split; [reflexivity|]. now apply Hinit.
      + cbn [bind] in Hinit. congruence. }
  split; [|split].
  - intros p -> Hex. apply Hreads. unfold chosen_scaler. cbv zeta.
    subst explicit. now rewrite Hex.
  - intros Hex Hdef. apply Hreads. unfold chosen_scaler. cbv zeta.
    subst explicit default_scaler. destruct scaler_path as [p|];
      [rewrite Hex|]; now rewrite Hdef.
  - intros Hex Hdef self Hself.
    assert (Hc : chosen_scaler disk dir scaler_path = None).
    { unfold chosen_scaler. cbv zeta. subst explicit default_scaler.
      destruct scaler_path as [p|]; [rewrite Hex|]; now rewrite Hdef. }
    rewrite Hc in Hinit. pose proof (Hinit self Hself) as Hnone.
    split; [exact Hnone|]. intros features. unfold scale. now rewrite Hnone.
Qed.

(** A detector [__init__] returned is well formed and answers: its strategy
    is the lower-cased argument and one of the three names, so
    [get_strategy_info] describes it and never says "Unknown"; it has at
    least one model, under distinct file names that end in ["_model.pkl"];
    and [predict] returns on every vector of three features that the scaler
    accepts, with one vote entry per model. *)
Theorem constructed_detector_answers :
  forall (disk : Disk) (dir : string) (scaler_path : option string)
         (strat : string) (thr : Q) (self : EnsembleDetector),
    __init__ disk dir scaler_path strat thr = Ok self ->
    strategy self = lower strat /\
    In (strategy self) ["hard"; "soft"; "weighted"]%string /\
    threshold self = thr /\
    dict_lookup ENSEMBLE_STRATEGIES (strategy self)
    = Some (get_strategy_info self) /\
    get_strategy_info self <> "Unknown"%string /\
    models self <> [] /\
    distinct (keys (models self)) = true /\
    (forall name, In name (keys (models self)) ->
                  endswith name "_model.pkl" = true /\
                  In name (listdir disk dir)) /\
    (forall features fs : list Q,
        length features = 3%nat ->
        scale self features = Ok fs ->
        exists (sc : Q) (label : Z) (votes : dict Vote),
          predict self features = Ok (sc, label, votes) /\
          keys votes = keys (models self)).
Proof.
  intros disk dir scaler_path strat thr self Hinit.
  destruct (constructed_detector _ _ _ _ _ _ Hinit)
    as (Hknown & Hstrat & Hthr & Hne & Hdist).
  split; [exact Hstrat|]. split; [now apply dict_mem_keys in Hknown|].
  split; [exact Hthr|].
  assert (Hinfo : dict_lookup ENSEMBLE_STRATEGIES (strategy self)
                  = Some (get_strategy_info self)
                  /\ get_strategy_info self <> "Unknown"%string).
  { unfold get_strategy_info. apply known_strategy in Hknown.
    destruct Hknown as [-> | [-> | ->]]; split; try reflexivity;
      cbv; discriminate. }
  split; [apply Hinfo|]. split; [apply Hinfo|].
  split; [exact Hne|]. split; [exact Hdist|]. split.
  - intros name Hin.
    assert (Hms : _load_models disk dir = Ok (models self)).
    { unfold __init__ in Hinit.
      destruct (negb _); [discriminate|].
      destruct (_load_scaler disk dir scaler_path); cbn [bind] in Hinit;
        [|discriminate].
      destruct (_load_models disk dir); cbn [bind] in Hinit; [|discriminate].
      injection Hinit as <-. reflexivity. }
    destruct (load_models_takes_the_model_files disk dir)
      as (_ & _ & _ & _ & Hchar).
    destruct (Hchar (models self) Hms) as [_ Hlook].
    apply dict_mem_keys in Hin. unfold dict_mem in Hin.
    rewrite Hlook in Hin.
    destruct (existsb (String.eqb name) (listdir disk dir)) eqn:Ex;
      cbn [andb] in Hin; [|discriminate].
    destruct (endswith name "_model.pkl"); [|discriminate].
    split; [reflexivity|].
    apply existsb_exists in Ex. destruct Ex as (k & Hk & Heq).
    apply String.eqb_eq in Heq. now subst k.
  - intros features fs Hlen Hscale.
    rewrite (predict_unfold self features fs Hlen Hscale).
    destruct (aggregate_cases self (collect_votes (models self) fs []))
      as [(_ & sc & label & H) | (H & _)];
      [apply scored_needs_models | | congruence].
    rewrite H. exists sc, label, (collect_votes (models self) fs []).
    split; [reflexivity|].
    rewrite collect_votes_distinct by (now apply distinct_NoDup).
    apply keys_recorded.
Qed.

End EnsembleFurther.

(** ** The further properties on concrete inputs *)

Section FurtherExamples.
Local Open Scope Q_scope.

(** A full buffer of 2000 rows: the spike enters, the oldest row leaves. *)
Lemma training_buffer_window_witness :
  load_core_memory
    (files (fst (iteration (untrained 2000) (at_time spike 0))))
  = repeat calm 1999 ++ [spike].
Proof.
  destruct (proj1 training_buffer_window (untrained 2000) (at_time spike 0)
              spike eq_refl eq_refl) as (_ & _ & Hfull & _).
  rewrite Hfull; [reflexivity | vm_compute; reflexivity].
Defined.

(** The first flagged spike creates the archive with one row. *)
Lemma anomaly_archive_window_witness :
  DETECTED_ANOMALIES (files (fst (iteration alarmed (at_time spike 0))))
  = Some [archived spike "2024-01-01T00:00:00"].
Proof.
  destruct (anomaly_archive_window alarmed (at_time spike 0) spike
              eq_refl eq_refl) as (Hfile & _ & Hshort & _).
  rewrite Hfile, Hshort; [reflexivity | vm_compute; lia].
Defined.

(** With no model a spike is learned like any other sample. *)
Lemma detection_waits_witness :
  exists r : Report,
    snd (iteration (untrained 2) (at_time spike 0)) = Some r /\
    ai_status r = 0%Z /\
    load_core_memory (files (fst (iteration (untrained 2) (at_time spike 0))))
    = [calm; calm; spike].
Proof.
  destruct (proj1 detection_waits_for_a_model (untrained 2) (at_time spike 0)
              spike eq_refl eq_refl) as (r & Hr & _ & Hst & _ & Hmem & _).
  exists r. split; [exact Hr|]. split; [exact Hst|].
  rewrite Hmem. reflexivity.
Defined.

(** The alert of the twelfth spike rests on twelve live samples. *)
Lemma alert_needs_twelve_witness :
  let out := snd (run_pipeline alarmed (repeat (at_time spike 0) 12)) in
  exists r : Report,
    nth_error out 11 = Some (Some r) /\
    ai_status r = 1%Z /\
    (ANOMALY_THRESHOLD
     <= anomaly_counter alarmed + Z.of_nat (live_count (firstn 12 out)))%Z.
Proof.
  cbv zeta.
  assert (Hpos : (0 <= anomaly_counter alarmed)%Z) by (vm_compute; discriminate).
  destruct (alert_needs_twelve_live_samples alarmed
              (repeat (at_time spike 0) 12) Hpos) as [_ Halert].
  eexists. split; [vm_compute; reflexivity|]. split; [reflexivity|].
  eapply Halert; [vm_compute; reflexivity | reflexivity].
Defined.

(** The first poll stores the reading and delivers nothing. *)
Lemma first_poll_witness :
  fetch_live_logs toy_clock busy_db no_previous
  = (None, mkPreviousNetwork (Some 51000)
             (Some "2024-01-01T00:00:10Z"%string)).
Proof.
  destruct (first_poll_yields_no_sample toy_clock busy_db no_previous
              (or_introl eq_refl)) as (Hnone & Hprev & _).
  specialize (Hprev _ _ [] _ _ eq_refl eq_refl eq_refl eq_refl).
  destruct (fetch_live_logs toy_clock busy_db no_previous) as [x previous].
  cbn [fst snd] in Hnone, Hprev. now rewrite Hnone, Hprev.
Defined.

(** Ten seconds after a reading of 1000 bytes, 51000 bytes make a load of
    5000 bytes per second; the CPU is 10% busy. *)
Lemma fetched_sample_witness :
  exists (x : Sample) (previous : PreviousNetwork),
    fetch_live_logs toy_clock busy_db earlier_reading = (Some x, previous) /\
    cpu_usage x == 10 /\ memory_usage x == 40 /\ network_load x == 5000 /\
    0 <= network_load x.
Proof.
  destruct (fetch_live_logs toy_clock busy_db earlier_reading)
    as [[x|] previous] eqn:E; [|vm_compute in E; discriminate].
  destruct (fetched_sample_is_complete toy_clock busy_db earlier_reading
              previous x E)
    as (cpu & mem & net & p & idle & used & b & b0 & t1 & t0 & stamp0 & Hall).
  assert (Hnonneg : 0 <= network_load x) by tauto.
  clear Hall. exists x, previous. split; [reflexivity|].
  vm_compute in E. injection E as <- <-.
  repeat split; try reflexivity. exact Hnonneg.
Defined.


(** Raising the threshold of the soft example to 0.6 turns its label to
    normal and leaves the score 7/12 and the votes. *)
Lemma threshold_witness :
  exists (self' : EnsembleDetector) (sc : Q) (votes : dict Vote),
    set_threshold soft_example 0.6 = Ok self' /\
    predict soft_example sample_features = Ok (sc, 1%Z, votes) /\
    predict self' sample_features = Ok (sc, 0%Z, votes) /\
    sc == 7 # 12.
Proof.
  destruct (set_threshold soft_example 0.6) as [self'|e] eqn:Hset;
    [|vm_compute in Hset; discriminate].
  destruct (predict soft_example sample_features)
    as [[[sc label] votes]|e] eqn:E; [|vm_compute in E; discriminate].
  destruct (threshold_moves_only_the_cut soft_example self' 0.6
              sample_features Hset) as [_ Hsame].
  destruct (Hsame sc label votes E) as (label' & Hrun & _).
  vm_compute in Hset. injection Hset as <-.
  vm_compute in E. injection E as <- <- <-.
  vm_compute in Hrun. injection Hrun as Hlabel. subst label'.
  eexists _, _, _. split; [reflexivity|]. split; [reflexivity|].
  split; [vm_compute; reflexivity | reflexivity].
Defined.


(** Three broken models under the weighted strategy: score 0, label
    normal, three error entries. *)
Lemma all_models_failing_witness :
  predict (all_broken "weighted") sample_features
  = Ok (0, 0%Z,
        [ ("isolation_forest_model.pkl"%string, Failed "model is broken");
          ("elliptic_envelope_model.pkl"%string, Failed "model is broken");
          ("lof_model.pkl"%string, Failed "model is broken") ]).
Proof.
  destruct (all_models_failing_reads_normal (all_broken "weighted")
              sample_features sample_features eq_refl eq_refl eq_refl)
    as (Hrun & _).
  - intros item Hin. vm_compute in Hin.
    destruct Hin as [<- | [<- | [<- | []]]]; reflexivity.
  - rewrite Hrun. reflexivity.
Defined.

(** Of four files, two are model files and one of them loads. *)
Lemma load_models_witness :
  exists ms : dict Estimator,
    _load_models two_model_disk "models/" = Ok ms /\
    keys ms = ["isolation_forest_model.pkl"%string] /\
    dict_lookup ms "lof_model.pkl" = None /\
    dict_lookup ms "scaler.pkl" = None /\
    _load_models unreadable_disk "models/"
    = Raise (RuntimeError "No models loaded successfully").
Proof.
  destruct (load_models_takes_the_model_files two_model_disk "models/")
    as (_ & _ & _ & _ & Hchar).
  destruct (load_models_takes_the_model_files unreadable_disk "models/")
    as (_ & _ & Hnone & _).
  destruct (_load_models two_model_disk "models/") as [ms|e] eqn:E;
    [|vm_compute in E; discriminate].
  destruct (Hchar ms eq_refl) as [_ Hlook].
  exists ms. split; [reflexivity|].
  split; [vm_compute in E; injection E as <-; reflexivity|].
  split; [rewrite Hlook; reflexivity|]. split; [rewrite Hlook; reflexivity|].
  apply Hnone.
  - reflexivity.
  - exists "isolation_forest_model.pkl"%string. split; [now left | reflexivity].
  - intros f Hin _. reflexivity.
Defined.

(** No explicit path and a [scaler.pkl] in the models directory: the
    constructor reads that one. *)
Lemma scaler_precedence_witness :
  exists (self : EnsembleDetector) (sc : ScalerObj),
    __init__ two_model_disk "models/" None "Soft" 0.5 = Ok self /\
    load_scaler two_model_disk "models/scaler.pkl" = Ok sc /\
    scaler self = Some sc.
Proof.
  destruct (scaler_is_chosen_by_precedence two_model_disk "models/" None
              "Soft" 0.5 eq_refl) as (_ & Hdefault & _).
  destruct (Hdefault eq_refl eq_refl) as [_ Hreads].
  destruct (__init__ two_model_disk "models/" None "Soft" 0.5)
    as [self|e] eqn:E; [|vm_compute in E; discriminate].
  destruct (Hreads self eq_refl) as (sc & Hload & Hsc).
  exists self, sc. split; [reflexivity|]. split; [exact Hload | exact Hsc].
Defined.

(** The detector built from that directory answers a query. *)
Lemma constructed_detector_witness :
  exists (self : EnsembleDetector) (sc : Q) (label : Z) (votes : dict Vote),
    __init__ two_model_disk "models/" None "Soft" 0.5 = Ok self /\
    strategy self = "soft"%string /\
    get_strategy_info self
    = "Average anomaly scores across all models"%string /\
    predict self sample_features = Ok (sc, label, votes) /\
    keys votes = ["isolation_forest_model.pkl"%string].
Proof.
  destruct (__init__ two_model_disk "models/" None "Soft" 0.5)
    as [self|e] eqn:E; [|vm_compute in E; discriminate].
  destruct (constructed_detector_answers _ _ _ _ _ _ E)
    as (Hstrat & _ & _ & Hinfo & _ & _ & _ & _ & Hanswers).
  destruct (Hanswers sample_features sample_features)
    as (sc & label & votes & Hrun & Hkeys).
  - reflexivity.
  - vm_compute in E. injection E as <-. reflexivity.
  - exists self, sc, label, votes. split; [reflexivity|].
    split; [exact Hstrat|].
    vm_compute in E. injection E as <-.
    split; [reflexivity|]. split; [exact Hrun|]. rewrite Hkeys. reflexivity.
Defined.


(** After the retraining at 301 seconds a restart finds the new model. *)
Lemma restart_witness :
  brain (startup
           (files (fst (run_pipeline (untrained 29) [at_time calm 301])))
           0 0)
  = Some (1%Z, tt).
Proof.
  destruct (proj2 restart_resumes_the_model (untrained 29) [at_time calm 301]
              eq_refl) as [_ Hrestart].
  destruct (Hrestart 0%Z 0) as [Hbrain _].
  rewrite Hbrain. reflexivity.
Defined.

(** The memory query failing: nothing delivered, the reading kept. *)
Lemma failed_poll_witness :
  fetch_live_logs toy_clock broken_db earlier_reading = (None, earlier_reading).
Proof.
  apply (proj1 (failed_poll_delivers_nothing toy_clock) broken_db
           earlier_reading (Exception "connection refused")).
  right. left. reflexivity.
Defined.

End FurtherExamples.
